(** * A shallow embedding of the [spi] package (Linux spidev driver in Go)

    The package talks to the kernel through [open], [flock], [close],
    [read] and [ioctl], and to a GPIO line through the [gpio] package.
    All of these are outside the package, so they are modelled as an
    environment: a world type [W] and one oracle per call.  Every call
    that the package makes is recorded, with its arguments and its result,
    in a chronological trace; the package's functions are computations in
    a state-and-trace monad over that environment. *)

From Stdlib Require Import ZArith List String Bool Lia.
Import ListNotations.
Open Scope string_scope.
Open Scope list_scope.
Open Scope Z_scope.

(** ** Go's fixed-width unsigned integers *)

Module Go.

(** [uint], [int] and [uintptr] are 32 bits wide on GOARCH=386 and arm,
    64 bits wide on amd64 and arm64. *)
Inductive wordsize : Type := W32 | W64.

Definition bits (ws : wordsize) : Z :=
  match ws with W32 => 32 | W64 => 64 end.

(** A conversion to an unsigned type keeps the low bits of the two's
    complement representation. *)
Definition wrap (w n : Z) : Z := n mod 2 ^ w.

Definition uint8 (n : Z) : Z := wrap 8 n.
Definition uint16 (n : Z) : Z := wrap 16 n.
Definition uint32 (n : Z) : Z := wrap 32 n.
Definition uint64 (n : Z) : Z := wrap 64 n.
Definition uint (ws : wordsize) (n : Z) : Z := wrap (bits ws) n.

(** The unsigned types a struct field can have in this package. *)
Inductive utype : Type := T_uint8 | T_uint16 | T_uint32 | T_uint64.

Definition width (t : utype) : Z :=
  match t with
  | T_uint8 => 8 | T_uint16 => 16 | T_uint32 => 32 | T_uint64 => 64
  end.

Definition sizeof (t : utype) : Z := width t / 8.

(** Alignment of a field: its size, capped by the machine word. *)
Definition alignof (ws : wordsize) (t : utype) : Z :=
  Z.min (sizeof t) (bits ws / 8).

Definition align_up (off a : Z) : Z := ((off + a - 1) / a) * a.

(** Offsets the compiler gives to the fields of a struct, in declaration
    order, starting at offset [off]; the second component is the first
    free offset after the last field. *)
Fixpoint offsets_from (ws : wordsize) (off : Z) (fs : list utype)
  : list Z * Z :=
  match fs with
  | [] => ([], off)
  | t :: fs' =>
      let o := align_up off (alignof ws t) in
      let '(os, e) := offsets_from ws (o + sizeof t) fs' in
      (o :: os, e)
  end.

Definition struct_align (ws : wordsize) (fs : list utype) : Z :=
  fold_right (fun t a => Z.max (alignof ws t) a) 1 fs.

Definition struct_size (ws : wordsize) (fs : list utype) : Z :=
  align_up (snd (offsets_from ws 0 fs)) (struct_align ws fs).

(** A byte slice: the address of its first element and its elements. *)
Record slice : Type := mkSlice { ptr : Z; elems : list Byte.byte }.

Definition len (s : slice) : Z := Z.of_nat (List.length (elems s)).

(** [s[off:]] shares the backing array of [s]. *)
Definition slice_from (s : slice) (off : Z) : slice :=
  {| ptr := ptr s + off; elems := skipn (Z.to_nat off) (elems s) |}.

(** [&s[0]]: the address of the first element, or a run-time panic
    (index out of range) when the slice is empty. *)
Definition addr_of_first (s : slice) : option Z :=
  match elems s with
  | [] => None
  | _ :: _ => Some (ptr s)
  end.

(** Storing [d] into the backing array of [s] from index [off] on. *)
Definition store (s : slice) (off : Z) (d : list Byte.byte) : slice :=
  {| ptr := ptr s;
     elems := firstn (Z.to_nat off) (elems s) ++ d
              ++ skipn (Z.to_nat off + List.length d) (elems s) |}.

(** What a call leaves behind: a normal return or a run-time panic. *)
Inductive outcome (A : Type) : Type :=
| Returned (a : A)
| Panicked (msg : string).
Arguments Returned {A} a.
Arguments Panicked {A} msg.

End Go.

(** ** Definitions from <linux/spi/spidev.h> *)

Module Spidev.
Import Go.

Record spi_ioc_transfer : Type := {
  tx_buf : Z;
  rx_buf : Z;
  len : Z;
  speed_hz : Z;
  delay_usecs : Z;
  bits_per_word : Z;
  cs_change : Z;
  tx_nbits : Z;
  rx_nbits : Z;
  pad : Z
}.

(** The declaration of the struct: field names and types, in order. *)
Definition spi_ioc_transfer_fields : list (string * utype) :=
  [ ("tx_buf", T_uint64);
    ("rx_buf", T_uint64);
    ("len", T_uint32);
    ("speed_hz", T_uint32);
    ("delay_usecs", T_uint16);
    ("bits_per_word", T_uint8);
    ("cs_change", T_uint8);
    ("tx_nbits", T_uint8);
    ("rx_nbits", T_uint8);
    ("pad", T_uint16) ].

Definition spi_CPHA : Z := 0x01.
Definition spi_CPOL : Z := 0x02.

Definition spi_MODE_0 : Z := 0.
Definition spi_MODE_1 : Z := spi_CPHA.
Definition spi_MODE_2 : Z := spi_CPOL.
Definition spi_MODE_3 : Z := Z.lor spi_CPOL spi_CPHA.

Definition spi_IOC_MESSAGE_base : Z := 0x40006B00.
Definition spi_IOC_MESSAGE_incr : Z := 0x200000.

Definition spi_IOC_RD_MODE : Z := 0x80016B01.
Definition spi_IOC_WR_MODE : Z := 0x40016B01.
Definition spi_IOC_RD_LSB_FIRST : Z := 0x80016B02.
Definition spi_IOC_WR_LSB_FIRST : Z := 0x40016B02.
Definition spi_IOC_RD_BITS_PER_WORD : Z := 0x80016B03.
Definition spi_IOC_WR_BITS_PER_WORD : Z := 0x40016B03.
Definition spi_IOC_RD_MAX_SPEED_HZ : Z := 0x80046B04.
Definition spi_IOC_WR_MAX_SPEED_HZ : Z := 0x40046B04.

(** [func spi_IOC_MESSAGE(n uint) uint]: the product and the sum are
    computed in [uint]. *)
Definition spi_IOC_MESSAGE (ws : wordsize) (n : Z) : Z :=
  uint ws (spi_IOC_MESSAGE_base + uint ws (n * spi_IOC_MESSAGE_incr)).

End Spidev.

(** ** Error values

    [unix.Errno] numbers, errors made by other packages, and the errors
    the package builds with [fmt.Errorf]: the format string and its
    operands.  An operand printed with the verb [%w] is wrapped, and
    [errors.Unwrap] gives it back. *)

Module Errors.

Inductive error : Type :=
| Errno (e : Z)
| Foreign (msg : string)
| Errorf (format : string) (args : list operand)
with operand : Type :=
| OpString (s : string)
| OpInt (n : Z)
| OpValue (e : error)
| OpWrap (e : error).

Fixpoint first_wrapped (args : list operand) : option error :=
  match args with
  | [] => None
  | OpWrap e :: _ => Some e
  | _ :: args' => first_wrapped args'
  end.

(** [errors.Unwrap]. *)
Definition Unwrap (e : error) : option error :=
  match e with
  | Errorf _ args => first_wrapped args
  | _ => None
  end.

(** [err == errno] for an [unix.Errno] constant. *)
Definition is_errno (err : error) (errno : Z) : bool :=
  match err with
  | Errno e => e =? errno
  | _ => false
  end.

(** An errno returned by a raw system call, as [unix] hands it on:
    [nil] when it is zero. *)
Definition errnoErr (e1 : Z) : option error :=
  if e1 =? 0 then None else Some (Errno e1).

End Errors.

(** ** The environment and the trace of calls *)

Module Env.
Import Go Spidev Errors.

(** Constants of [golang.org/x/sys/unix] on Linux. *)
Definition O_RDWR : Z := 0x2.
Definition LOCK_EX : Z := 0x2.
Definition LOCK_NB : Z := 0x4.
Definition EWOULDBLOCK : Z := 0xb.

(** A [gpio.OutputPin] value: a handle chosen by the [gpio] package. *)
Inductive OutputPin : Type := PinHandle (id : Z).

(** The value an ioctl argument points to. *)
Inductive ioctl_arg : Type :=
| ArgU8 (v : Z)
| ArgU32 (v : Z)
| ArgTransfer (tr : spi_ioc_transfer).

(** One completed call, with its arguments and what it returned. *)
Inductive event : Type :=
| EvOpen (path : string) (flags perm : Z) (fd errno : Z)
| EvFlock (fd how : Z) (errno : Z)
| EvClose (fd : Z) (errno : Z)
| EvGpioOutput (pin : Z) (b1 b2 : bool) (r : OutputPin + error)
| EvPinWrite (p : OutputPin) (value : bool)
| EvIoctl (fd op : Z) (arg : ioctl_arg) (errno : Z)
| EvRead (fd : Z) (p : Z) (count : Z) (data : list Byte.byte) (errno : Z).

(** The oracles: what the kernel and the [gpio] package answer in a
    given world, and the world they leave. *)
Record OS (W : Type) : Type := {
  os_open : string -> Z -> Z -> W -> (Z * Z) * W;
  os_flock : Z -> Z -> W -> Z * W;
  os_close : Z -> W -> Z * W;
  os_ioctl : Z -> Z -> ioctl_arg -> W -> Z * W;
  os_read : Z -> Z -> Z -> W -> (list Byte.byte * Z) * W;
  os_gpio_output : Z -> bool -> bool -> W -> (OutputPin + error) * W;
  os_pin_write : OutputPin -> bool -> W -> option error * W
}.
Arguments os_open {W} _ _ _ _ _.
Arguments os_flock {W} _ _ _ _.
Arguments os_close {W} _ _ _.
Arguments os_ioctl {W} _ _ _ _ _.
Arguments os_read {W} _ _ _ _ _.
Arguments os_gpio_output {W} _ _ _ _ _.
Arguments os_pin_write {W} _ _ _ _.

(** A computation: from a world to a result, the world after it and the
    calls it made, oldest first. *)
Definition M (W A : Type) : Type := W -> A * W * list event.

Definition ret {W A} (a : A) : M W A := fun w => (a, w, []).

Definition bind {W A B} (m : M W A) (f : A -> M W B) : M W B :=
  fun w =>
    let '(a, w1, t1) := m w in
    let '(b, w2, t2) := f a w1 in
    (b, w2, t1 ++ t2).

Definition result {W A} (r : A * W * list event) : A := fst (fst r).
Definition world {W A} (r : A * W * list event) : W := snd (fst r).
Definition trace {W A} (r : A * W * list event) : list event := snd r.

End Env.

Declare Scope spi_scope.
Notation "x <- m ;; k" := (Env.bind m (fun x => k))
  (at level 61, m at next level, right associativity) : spi_scope.
Notation "m ;;; k" := (Env.bind m (fun _ => k))
  (at level 61, right associativity) : spi_scope.

(** ** The package [spi] *)

Module Spi.
Import Go Spidev Errors Env.
Local Open Scope spi_scope.

(** [Device] represents an SPI device.  [cs] is [None] for a nil
    interface value.  The methods have a pointer receiver but none of
    them assigns to a field, so a [Device] is passed as a value. *)
Record Device : Type := mkDevice {
  fd : Z;
  speed : Z;
  cs : option OutputPin
}.

Definition index_out_of_range : string :=
  "runtime error: index out of range [0] with length 0".

Section WithEnvironment.

Variable W : Type.
Variable os : OS W.
Variable ws : wordsize.

(** *** The calls into [unix] and [gpio] *)

Definition unix_Open (path : string) (flags perm : Z)
  : M W (Z * option error) :=
  fun w =>
    let '((r0, e1), w') := os_open os path flags perm w in
    ((r0, errnoErr e1), w', [EvOpen path flags perm r0 e1]).

Definition unix_Flock (fd how : Z) : M W (option error) :=
  fun w =>
    let '(e1, w') := os_flock os fd how w in
    (errnoErr e1, w', [EvFlock fd how e1]).

Definition unix_Close (fd : Z) : M W (option error) :=
  fun w =>
    let '(e1, w') := os_close os fd w in
    (errnoErr e1, w', [EvClose fd e1]).

(** [unix.Read(fd, p)]: the kernel stores at most [len(p)] bytes at the
    start of [p], and none when it fails; the result is the byte count
    (-1 on failure), the error and the bytes stored. *)
Definition unix_Read (fd : Z) (p : slice)
  : M W (Z * option error * list Byte.byte) :=
  fun w =>
    let '((data, e1), w') := os_read os fd (ptr p) (Go.len p) w in
    let d := if e1 =? 0 then firstn (Z.to_nat (Go.len p)) data else [] in
    let n := if e1 =? 0 then Z.of_nat (List.length d) else -1 in
    ((n, errnoErr e1, d), w', [EvRead fd (ptr p) (Go.len p) d e1]).

(** [unix.Syscall(unix.SYS_IOCTL, fd, op, arg)], of which only the errno
    is used. *)
Definition unix_Syscall_IOCTL (fd op : Z) (arg : ioctl_arg) : M W Z :=
  fun w =>
    let '(errno, w') := os_ioctl os fd op arg w in
    (errno, w', [EvIoctl fd op arg errno]).

Definition gpio_Output (pin : Z) (b1 b2 : bool)
  : M W (OutputPin + error) :=
  fun w =>
    let '(r, w') := os_gpio_output os pin b1 b2 w in
    (r, w', [EvGpioOutput pin b1 b2 r]).

(** [cs.Write(value)]; the package never looks at its result. *)
Definition OutputPin_Write (p : OutputPin) (value : bool) : M W unit :=
  fun w =>
    let '(_, w') := os_pin_write os p value w in
    (tt, w', [EvPinWrite p value]).

(** *** Open and Close *)

(** [Open] opens the given SPI device at the specified speed (in Hertz).
    If [customCS] is not zero, that pin number is used as a custom
    chip-select. *)
Definition Open (spiDevice : string) (speed customCS : Z)
  : M W (option Device * option error) :=
  r <- unix_Open spiDevice O_RDWR 0 ;;
  let '(fd, err) := r in
  match err with
  | Some err =>
      ret (None, Some (Errorf "%s: %w" [OpString spiDevice; OpWrap err]))
  | None =>
      (* Use specified GPIO pin as custom chip-select. *)
      let custom : M W (option Device * option error) :=
        r <- gpio_Output customCS true false ;;
        match r with
        | inr err =>
            unix_Close fd ;;;
            ret (None, Some (Errorf "GPIO %d for chip select: %w"
                               [OpInt customCS; OpWrap err]))
        | inl cs =>
            ret (Some {| fd := fd; speed := speed; cs := Some cs |}, None)
        end in
      (* Ensure exclusive access. *)
      err <- unix_Flock fd (Z.lor LOCK_EX LOCK_NB) ;;
      match err with
      | None =>
          if customCS =? 0 then
            ret (Some {| fd := fd; speed := speed; cs := None |}, None)
          else custom
      | Some err =>
          if is_errno err EWOULDBLOCK then
            unix_Close fd ;;;
            ret (None, Some (Errorf "%s: device is in use"
                               [OpString spiDevice]))
          else
            unix_Close fd ;;;
            ret (None, Some (Errorf "%s: %w"
                               [OpString spiDevice; OpWrap err]))
      end
  end.

(** The [Open] of the earlier revision of the file kept in
    [src/unnamed/part_000]: the lock is taken only when no custom
    chip-select is asked for. *)
Definition Open_earlier (spiDevice : string) (speed customCS : Z)
  : M W (option Device * option error) :=
  r <- unix_Open spiDevice O_RDWR 0 ;;
  let '(fd, err) := r in
  match err with
  | Some err =>
      ret (None, Some (Errorf "%s: %v" [OpString spiDevice; OpValue err]))
  | None =>
      if customCS =? 0 then
        err <- unix_Flock fd (Z.lor LOCK_EX LOCK_NB) ;;
        match err with
        | None =>
            ret (Some {| fd := fd; speed := speed; cs := None |}, None)
        | Some err =>
            if is_errno err EWOULDBLOCK then
              unix_Close fd ;;;
              ret (None, Some (Errorf "%s: device is in use"
                                 [OpString spiDevice]))
            else
              unix_Close fd ;;;
              ret (None, Some (Errorf "%s: %v"
                                 [OpString spiDevice; OpValue err]))
        end
      else
        r <- gpio_Output customCS true false ;;
        match r with
        | inr err =>
            unix_Close fd ;;;
            ret (None, Some (Errorf "GPIO %d for chip select: %v"
                               [OpInt customCS; OpValue err]))
        | inl cs =>
            ret (Some {| fd := fd; speed := speed; cs := Some cs |}, None)
        end
  end.

(** [Close] closes the SPI device. *)
Definition Close (dev : Device) : M W (option error) :=
  unix_Close (fd dev).

(** *** The device-control call *)

Definition syscall (dev : Device) (op : Z) (arg : ioctl_arg)
  : M W (option error) :=
  errno <- unix_Syscall_IOCTL (uint ws (fd dev)) (uint ws op) arg ;;
  if negb (errno =? 0) then ret (Some (Errno errno)) else ret None.

Definition syscallU8 (dev : Device) (op : Z) (arg : Z)
  : M W (option error) :=
  syscall dev op (ArgU8 arg).

Definition syscallU32 (dev : Device) (op : Z) (arg : Z)
  : M W (option error) :=
  syscall dev op (ArgU32 arg).

(** *** Chip-select around an operation

    [if dev.cs != nil { dev.cs.Write(true); defer dev.cs.Write(false) }]
    followed by [body]: the deferred call runs when [body] is over,
    whether it returned or panicked. *)
Definition with_chip_select {A : Type} (dev : Device) (body : M W A)
  : M W A :=
  match cs dev with
  | None => body
  | Some p =>
      OutputPin_Write p true ;;;
      r <- body ;;
      OutputPin_Write p false ;;;
      ret r
  end.

(** *** Transfer *)

(** [Transfer] performs an SPI transfer operation (send and receive). *)
Definition Transfer (dev : Device) (snd rcv : slice)
  : M W (outcome (option error)) :=
  if negb (Go.len snd =? Go.len rcv) then
    ret (Returned (Some (Errorf
      "transfer buffers must be the same length (snd = %d, rcv = %d)"
      [OpInt (Go.len snd); OpInt (Go.len rcv)])))
  else
    with_chip_select dev
      match addr_of_first snd with
      | None => ret (Panicked index_out_of_range)
      | Some psnd =>
          match addr_of_first rcv with
          | None => ret (Panicked index_out_of_range)
          | Some prcv =>
              let sndAddr := uint64 (uint ws psnd) in
              let rcvAddr := uint64 (uint ws prcv) in
              let tr := {| tx_buf := sndAddr;
                           rx_buf := rcvAddr;
                           Spidev.len := uint32 (Go.len snd);
                           speed_hz := uint32 (speed dev);
                           delay_usecs := 0;
                           bits_per_word := 8;
                           cs_change := 0;
                           tx_nbits := 0;
                           rx_nbits := 0;
                           pad := 0 |} in
              err <- syscall dev (spi_IOC_MESSAGE ws 1) (ArgTransfer tr) ;;
              ret (Returned err)
          end
      end.

(** *** Word size and clock speed *)

(** [SetBitsPerWord] sets the word size of the SPI device. *)
Definition SetBitsPerWord (dev : Device) (n : Z) : M W (option error) :=
  let bits := uint8 n in
  syscallU8 dev spi_IOC_WR_BITS_PER_WORD bits.

(** [SetMaxSpeed] sets the maximum speed of the SPI device, in Hertz. *)
Definition SetMaxSpeed (dev : Device) (n : Z) : M W (option error) :=
  let speed := uint32 n in
  syscallU32 dev spi_IOC_WR_MAX_SPEED_HZ speed.

(** *** Read, as in the revision kept in [src/unnamed/part_001]

    The loop has no bound of its own, so it is given fuel: one unit per
    test of the loop condition; [None] means that the fuel ran out
    before the loop ended. *)
Fixpoint Read_loop (fuel : nat) (dev : Device) (buf : slice) (off : Z)
  : M W (option (option error * slice)) :=
  match fuel with
  | O => ret None
  | S fuel' =>
      if off <? Go.len buf then
        r <- unix_Read (fd dev) (slice_from buf off) ;;
        let '(n, err, d) := r in
        match err with
        | Some err => ret (Some (Some err, store buf off d))
        | None => Read_loop fuel' dev (store buf off d) (off + n)
        end
      else ret (Some (None, buf))
  end.

(** [Read] reads from [dev] into [buf], blocking if necessary until
    exactly [len(buf)] bytes have been read.  The result carries the
    contents of [buf] when it returns. *)
Definition Read (fuel : nat) (dev : Device) (buf : slice)
  : M W (option (option error * slice)) :=
  with_chip_select dev (Read_loop fuel dev buf 0).

End WithEnvironment.

Arguments Open {W} os spiDevice speed customCS _.
Arguments Open_earlier {W} os spiDevice speed customCS _.
Arguments Close {W} os dev _.
Arguments Transfer {W} os ws dev snd rcv _.
Arguments SetBitsPerWord {W} os ws dev n _.
Arguments SetMaxSpeed {W} os ws dev n _.
Arguments Read {W} os fuel dev buf _.
Arguments Read_loop {W} os fuel dev buf off _.
Arguments with_chip_select {W} os {A} dev body _.
Arguments syscall {W} os ws dev op arg _.

End Spi.

(** ** Concrete environments

    A kernel and a GPIO package that always give the same answers: used
    to run the package on concrete inputs. *)

Module Fixed.
Import Go Spidev Errors Env.

Record answers : Type := {
  open_fd : Z;
  open_errno : Z;
  flock_errno : Z;
  close_errno : Z;
  ioctl_errno : Z;
  read_chunk : list Byte.byte;
  read_errno : Z;
  gpio_result : OutputPin + error
}.

Definition fixed_os (a : answers) : OS unit := {|
  os_open := fun _ _ _ w => ((open_fd a, open_errno a), w);
  os_flock := fun _ _ w => (flock_errno a, w);
  os_close := fun _ w => (close_errno a, w);
  os_ioctl := fun _ _ _ w => (ioctl_errno a, w);
  os_read := fun _ _ _ w => ((read_chunk a, read_errno a), w);
  os_gpio_output := fun _ _ _ w => (gpio_result a, w);
  os_pin_write := fun _ _ w => (None, w)
|}.

(** Everything succeeds; a read delivers up to three bytes. *)
Definition all_good : answers := {|
  open_fd := 3;
  open_errno := 0;
  flock_errno := 0;
  close_errno := 0;
  ioctl_errno := 0;
  read_chunk := [Byte.x01; Byte.x02; Byte.x03];
  read_errno := 0;
  gpio_result := inl (PinHandle 17)
|}.

(** The device is locked by somebody else. *)
Definition locked : answers := {|
  open_fd := 3;
  open_errno := 0;
  flock_errno := EWOULDBLOCK;
  close_errno := 0;
  ioctl_errno := 0;
  read_chunk := [];
  read_errno := 0;
  gpio_result := inl (PinHandle 17)
|}.

(** Every device-control call fails with EIO. *)
Definition io_error : answers := {|
  open_fd := 3;
  open_errno := 0;
  flock_errno := 0;
  close_errno := 0;
  ioctl_errno := 5;
  read_chunk := [];
  read_errno := 0;
  gpio_result := inl (PinHandle 17)
|}.

(** End of file on every read: zero bytes and no error. *)
Definition at_eof : answers := {|
  open_fd := 3;
  open_errno := 0;
  flock_errno := 0;
  close_errno := 0;
  ioctl_errno := 0;
  read_chunk := [];
  read_errno := 0;
  gpio_result := inl (PinHandle 17)
|}.

End Fixed.

(** ** Reading traces

    The vocabulary in which the properties below are stated. *)

Module Obs.
Import Go Spidev Errors Env Spi.

(** The error values built by the package. *)
Definition length_error (snd rcv : slice) : error :=
  Errorf "transfer buffers must be the same length (snd = %d, rcv = %d)"
         [OpInt (Go.len snd); OpInt (Go.len rcv)].

Definition in_use_error (spiDevice : string) : error :=
  Errorf "%s: device is in use" [OpString spiDevice].

Definition open_error (spiDevice : string) (err : error) : error :=
  Errorf "%s: %w" [OpString spiDevice; OpWrap err].

Definition chip_select_error (customCS : Z) (err : error) : error :=
  Errorf "GPIO %d for chip select: %w" [OpInt customCS; OpWrap err].

(** What [syscall] makes of an errno. *)
Definition errno_result (errno : Z) : option error :=
  if errno =? 0 then None else Some (Errno errno).

Definition pin_eqb (p q : OutputPin) : bool :=
  match p, q with PinHandle a, PinHandle b => a =? b end.

(** The request codes of the device-control calls of a trace. *)
Fixpoint ioctl_ops (tr : list event) : list Z :=
  match tr with
  | [] => []
  | EvIoctl _ op _ _ :: tr' => op :: ioctl_ops tr'
  | _ :: tr' => ioctl_ops tr'
  end.

(** The transfer descriptors handed to the kernel in a trace. *)
Fixpoint descriptors (tr : list event) : list spi_ioc_transfer :=
  match tr with
  | [] => []
  | EvIoctl _ _ (ArgTransfer d) _ :: tr' => d :: descriptors tr'
  | _ :: tr' => descriptors tr'
  end.

(** The calls to [flock] and to [gpio.Output] of a trace. *)
Fixpoint flocks (tr : list event) : list (Z * Z) :=
  match tr with
  | [] => []
  | EvFlock fd how _ :: tr' => (fd, how) :: flocks tr'
  | _ :: tr' => flocks tr'
  end.

Fixpoint pin_writes (p : OutputPin) (tr : list event) : list bool :=
  match tr with
  | [] => []
  | EvPinWrite q v :: tr' =>
      if pin_eqb q p then v :: pin_writes p tr' else pin_writes p tr'
  | _ :: tr' => pin_writes p tr'
  end.

(** Chip-select discipline of a trace, read from left to right with the
    line [asserted] or not at the start: every device-control call
    happens while the line is asserted, and the line is deasserted at
    the end. *)
Fixpoint bracketed (p : OutputPin) (asserted : bool) (tr : list event)
  : bool :=
  match tr with
  | [] => negb asserted
  | EvPinWrite q v :: tr' =>
      if pin_eqb q p then bracketed p v tr' else bracketed p asserted tr'
  | EvIoctl _ _ _ _ :: tr' => asserted && bracketed p asserted tr'
  | _ :: tr' => bracketed p asserted tr'
  end.

(** A trace with the chip-select, if there is one, asserted before it
    and deasserted after it. *)
Definition around (c : option OutputPin) (tr : list event) : list event :=
  match c with
  | None => tr
  | Some p => EvPinWrite p true :: tr ++ [EvPinWrite p false]
  end.

(** A trace whose last call closes the file descriptor [fd]. *)
Definition ends_with_close (fd : Z) (tr : list event) : Prop :=
  exists pre errno, tr = pre ++ [EvClose fd errno].

(** A trace made of reads on [fd] into a buffer at address [base] of
    length [L], the first one at offset [off]: each read is given the
    rest of the buffer, the next one starts where the last one stopped,
    and a failed read is the last. *)
Fixpoint chained (fd base L off : Z) (tr : list event) : Prop :=
  match tr with
  | [] => True
  | EvRead fd' p count d errno :: tr' =>
      fd' = fd /\ p = base + off /\ count = L - off /\ off < L /\
      if errno =? 0
      then chained fd base L (off + Z.of_nat (List.length d)) tr'
      else d = [] /\ tr' = []
  | _ :: _ => False
  end.

(** The bytes that the reads of a trace delivered, in order. *)
Fixpoint collected (tr : list event) : list Byte.byte :=
  match tr with
  | [] => []
  | EvRead _ _ _ d _ :: tr' => d ++ collected tr'
  | _ :: tr' => collected tr'
  end.

(** The errno of the last read of a trace, 0 if there is none. *)
Fixpoint last_read_errno (tr : list event) : Z :=
  match tr with
  | [] => 0
  | EvRead _ _ _ _ errno :: tr' =>
      match tr' with [] => errno | _ => last_read_errno tr' end
  | _ :: tr' => last_read_errno tr'
  end.

(** An environment in which a read that succeeds on a non-empty buffer
    delivers at least one byte. *)
Definition reads_make_progress {W} (os : OS W) : Prop :=
  forall fd p count w,
    0 < count ->
    snd (fst (os_read os fd p count w)) = 0 ->
    fst (fst (os_read os fd p count w)) <> [].

(** The widths, in bits, of the fields of a struct declaration. *)
Definition field_widths (fs : list (string * utype)) : list Z :=
  map (fun f => width (snd f)) fs.

Definition field_names (fs : list (string * utype)) : list string :=
  map fst fs.

End Obs.

(** ** The rest of the package

    The accessors that read a parameter back need what the kernel stores
    through the pointer it is given, and [Write] needs the [write] system
    call.  Both are added to the environment here. *)

Module More.
Import Go Spidev Errors Env Spi.
Local Open Scope spi_scope.

(** [int(x)]: the low bits of [x] read as a two's complement number of
    the word size. *)
Definition int (ws : wordsize) (n : Z) : Z :=
  let r := n mod 2 ^ bits ws in
  if r <? 2 ^ (bits ws - 1) then r else r - 2 ^ bits ws.

(** The environment of [Env.OS], with two more oracles: the value that
    a device-control call leaves in the variable its argument points to,
    and [write], which answers a byte count and an errno. *)
Record Kernel (W : Type) : Type := {
  k_os : OS W;
  k_ioctl_store : Z -> Z -> ioctl_arg -> W -> ioctl_arg;
  k_write : Z -> Z -> list Byte.byte -> W -> (Z * Z) * W
}.
Arguments k_os {W} _.
Arguments k_ioctl_store {W} _ _ _ _ _.
Arguments k_write {W} _ _ _ _ _.

(** A [uint8] variable after the kernel stored [out] through a pointer
    to it: it can hold eight bits, and keeps its value if the kernel
    stored nothing of that width. *)
Definition loadU8 (out : ioctl_arg) (before : Z) : Z :=
  match out with
  | ArgU8 v => uint8 v
  | _ => before
  end.

Definition loadU32 (out : ioctl_arg) (before : Z) : Z :=
  match out with
  | ArgU32 v => uint32 v
  | _ => before
  end.

(** The calls of [Write], next to those of [Env.event]. *)
Inductive xevent : Type :=
| Sys (e : event)
| EvWrite (fd : Z) (p : Z) (count : Z) (n errno : Z).

Definition MX (W A : Type) : Type := W -> A * W * list xevent.

Definition retx {W A} (a : A) : MX W A := fun w => (a, w, []).

Definition bindx {W A B} (m : MX W A) (f : A -> MX W B) : MX W B :=
  fun w =>
    let '(a, w1, t1) := m w in
    let '(b, w2, t2) := f a w1 in
    (b, w2, t1 ++ t2).

Definition liftx {W A} (m : M W A) : MX W A :=
  fun w => let '(a, w1, t) := m w in (a, w1, map Sys t).

Definition xresult {W A} (r : A * W * list xevent) : A := fst (fst r).
Definition xworld {W A} (r : A * W * list xevent) : W := snd (fst r).
Definition xtrace {W A} (r : A * W * list xevent) : list xevent := snd r.

Section WithKernel.

Variable W : Type.
Variable k : Kernel W.
Variable ws : wordsize.

Let os : OS W := k_os k.

(** *** Reading a parameter back

    [dev.syscallU8(op, &x)] and [dev.syscallU32(op, &x)] followed by a
    use of [x]: the result is the value of [x] after the call and the
    error of the call. *)
Definition syscallU8_load (dev : Device) (op : Z) (x : Z)
  : M W (Z * option error) :=
  fun w =>
    let out := k_ioctl_store k (uint ws (fd dev)) (uint ws op) (ArgU8 x) w in
    let '(err, w', t) := syscallU8 W os ws dev op x w in
    ((loadU8 out x, err), w', t).

Definition syscallU32_load (dev : Device) (op : Z) (x : Z)
  : M W (Z * option error) :=
  fun w =>
    let out := k_ioctl_store k (uint ws (fd dev)) (uint ws op) (ArgU32 x) w in
    let '(err, w', t) := syscallU32 W os ws dev op x w in
    ((loadU32 out x, err), w', t).

(** [Mode] returns the mode of the SPI device. *)
Definition Mode (dev : Device) : M W (Z * option error) :=
  r <- syscallU8_load dev spi_IOC_RD_MODE 0 ;;
  let '(mode, err) := r in
  ret (mode, err).

(** [SetMode] sets the mode of the SPI device; [mode] is a [uint8]. *)
Definition SetMode (dev : Device) (mode : Z) : M W (option error) :=
  syscallU8 W os ws dev spi_IOC_WR_MODE mode.

(** [LSBFirst] returns bit order of the SPI device. *)
Definition LSBFirst (dev : Device) : M W (bool * option error) :=
  r <- syscallU8_load dev spi_IOC_RD_LSB_FIRST 0 ;;
  let '(b, err) := r in
  if negb (b =? 0) then ret (true, err) else ret (false, err).

(** [SetLSBFirst] sets the bit order of the SPI device. *)
Definition SetLSBFirst (dev : Device) (lsb : bool) : M W (option error) :=
  let b := if lsb then 1 else 0 in
  syscallU8 W os ws dev spi_IOC_WR_LSB_FIRST b.

(** [BitsPerWord] returns the word size of the SPI device. *)
Definition BitsPerWord (dev : Device) : M W (Z * option error) :=
  r <- syscallU8_load dev spi_IOC_RD_BITS_PER_WORD 0 ;;
  let '(bits, err) := r in
  ret (int ws bits, err).

(** [MaxSpeed] returns the maximum speed of the SPI device, in Hertz. *)
Definition MaxSpeed (dev : Device) : M W (Z * option error) :=
  r <- syscallU32_load dev spi_IOC_RD_MAX_SPEED_HZ 0 ;;
  let '(speed, err) := r in
  ret (int ws speed, err).

(** *** The revision kept in [src/unnamed/part_001] *)

(** [unix.Write(fd, p)]: the byte count and the error. *)
Definition unix_Write (fd : Z) (p : slice) : MX W (Z * option error) :=
  fun w =>
    let '((n, e1), w') := k_write k fd (ptr p) (elems p) w in
    ((n, errnoErr e1), w', [EvWrite fd (ptr p) (Go.len p) n e1]).

(** The chip-select around a body that may call [write]. *)
Definition with_chip_select_x {A : Type} (dev : Device) (body : MX W A)
  : MX W A :=
  match cs dev with
  | None => body
  | Some p =>
      bindx (liftx (OutputPin_Write W os p true)) (fun _ =>
      bindx body (fun r =>
      bindx (liftx (OutputPin_Write W os p false)) (fun _ =>
      retx r)))
  end.

(** [Write] writes [len(buf)] bytes from [buf] to [dev]. *)
Definition Write (dev : Device) (buf : slice) : MX W (option error) :=
  with_chip_select_x dev
    (bindx (unix_Write (fd dev) buf) (fun r =>
     let '(n, err) := r in
     match err with
     | Some err => retx (Some err)
     | None =>
         if negb (n =? Go.len buf) then
           retx (Some (Errorf "wrote %d bytes instead of %d"
                              [OpInt n; OpInt (Go.len buf)]))
         else retx None
     end)).

(** [Transfer] uses [buf] for an SPI transfer operation (send and
    receive).  The received data overwrites [buf]. *)
Definition Transfer_buf (dev : Device) (buf : slice)
  : M W (outcome (option error)) :=
  with_chip_select os dev
    match addr_of_first buf with
    | None => ret (Panicked index_out_of_range)
    | Some pbuf =>
        let bufAddr := uint64 (uint ws pbuf) in
        let tr := {| tx_buf := bufAddr;
                     rx_buf := bufAddr;
                     Spidev.len := uint32 (Go.len buf);
                     speed_hz := uint32 (speed dev);
                     delay_usecs := 0;
                     bits_per_word := 8;
                     cs_change := 0;
                     tx_nbits := 0;
                     rx_nbits := 0;
                     pad := 0 |} in
        err <- syscall os ws dev (spi_IOC_MESSAGE ws 1) (ArgTransfer tr) ;;
        ret (Returned err)
    end.

(** [Open] of that revision.  [dev] and [err] are the two variables of
    the function; both are returned at the end. *)
Definition Open_part_001 (spiDevice : string) (speed customCS : Z)
  : M W (option Device * option error) :=
  r <- unix_Open W os spiDevice O_RDWR 0 ;;
  let '(fd, err) := r in
  match err with
  | Some err =>
      ret (None, Some (Errorf "%s: %v" [OpString spiDevice; OpValue err]))
  | None =>
      err <- unix_Flock W os fd (Z.lor LOCK_EX LOCK_NB) ;;
      r <- match err with
           | None =>
               ret (Some {| fd := fd; speed := speed; cs := None |}, None)
           | Some err =>
               if is_errno err EWOULDBLOCK then
                 unix_Close W os fd ;;;
                 ret (None, Some (Errorf "%s: device is in use"
                                    [OpString spiDevice]))
               else
                 unix_Close W os fd ;;;
                 ret (None, Some (Errorf "%s: %v"
                                    [OpString spiDevice; OpValue err]))
           end ;;
      let '(dev, err) := r in
      if (customCS =? 0) || (match err with Some _ => true | None => false end)
      then ret (dev, err)
      else
        r <- gpio_Output W os customCS true false ;;
        match r with
        | inr err =>
            unix_Close W os fd ;;;
            ret (dev, Some (Errorf "GPIO %d for chip select: %v"
                              [OpInt customCS; OpValue err]))
        | inl cs =>
            ret (Some {| fd := fd; speed := speed; cs := Some cs |}, None)
        end
  end.

End WithKernel.

Arguments Mode {W} k ws dev _.
Arguments SetMode {W} k ws dev mode _.
Arguments LSBFirst {W} k ws dev _.
Arguments SetLSBFirst {W} k ws dev lsb _.
Arguments BitsPerWord {W} k ws dev _.
Arguments MaxSpeed {W} k ws dev _.
Arguments Write {W} k dev buf _.
Arguments Transfer_buf {W} k ws dev buf _.
Arguments Open_part_001 {W} k spiDevice speed customCS _.

End More.

(** ** Vocabulary for the rest of the package *)

Module MoreObs.
Import Go Spidev Errors Env Spi Obs More.

(** The fields of a request code, as <asm-generic/ioctl.h> lays them
    out: number in bits 0-7, type in bits 8-15, size of the argument in
    bits 16-29, direction in bits 30-31. *)
Definition ioc_nr (c : Z) : Z := c mod 2 ^ 8.
Definition ioc_type (c : Z) : Z := (c / 2 ^ 8) mod 2 ^ 8.
Definition ioc_size (c : Z) : Z := (c / 2 ^ 16) mod 2 ^ 14.
Definition ioc_dir (c : Z) : Z := (c / 2 ^ 30) mod 2 ^ 2.

Definition IOC (dir type nr size : Z) : Z :=
  dir * 2 ^ 30 + size * 2 ^ 16 + type * 2 ^ 8 + nr.

Definition IOC_WRITE : Z := 1.
Definition IOC_READ : Z := 2.

(** The type byte of the SPI requests: the letter k. *)
Definition SPI_IOC_MAGIC : Z := 0x6B.

(** The size in bytes of what an argument points to. *)
Definition arg_size (ws : wordsize) (a : ioctl_arg) : Z :=
  match a with
  | ArgU8 _ => 1
  | ArgU32 _ => 4
  | ArgTransfer _ => struct_size ws (map snd spi_ioc_transfer_fields)
  end.

(** Every device-control call of a trace is given an argument of the
    size that its request code announces. *)
Fixpoint well_sized (ws : wordsize) (tr : list event) : Prop :=
  match tr with
  | [] => True
  | EvIoctl _ op a _ :: tr' =>
      ioc_size op = arg_size ws a /\ well_sized ws tr'
  | _ :: tr' => well_sized ws tr'
  end.

(** The calls to [close] and to [gpio.Output] of a trace. *)
Fixpoint closes (tr : list event) : list Z :=
  match tr with
  | [] => []
  | EvClose fd _ :: tr' => fd :: closes tr'
  | _ :: tr' => closes tr'
  end.

Fixpoint gpio_claims (tr : list event) : list (Z * bool * bool) :=
  match tr with
  | [] => []
  | EvGpioOutput pin b1 b2 _ :: tr' => (pin, b1, b2) :: gpio_claims tr'
  | _ :: tr' => gpio_claims tr'
  end.

(** The reads of a trace. *)
Fixpoint reads (tr : list event) : list (Z * Z) :=
  match tr with
  | [] => []
  | EvRead _ p count _ _ :: tr' => (p, count) :: reads tr'
  | _ :: tr' => reads tr'
  end.

(** A kernel that keeps a parameter: what a successful call with the
    request [wr] wrote is what a call with the request [rd] that follows
    it stores, and that call succeeds. *)
Definition keeps_parameter {W} (k : Kernel W) (wr rd : Z)
  (mk : Z -> ioctl_arg) : Prop :=
  forall fd v x w,
    fst (os_ioctl (k_os k) fd wr (mk v) w) = 0 ->
    let w' := snd (os_ioctl (k_os k) fd wr (mk v) w) in
    fst (os_ioctl (k_os k) fd rd (mk x) w') = 0 /\
    k_ioctl_store k fd rd (mk x) w' = mk v.

(** A kernel that stores nothing when a device-control call fails. *)
Definition stores_nothing_on_error {W} (k : Kernel W) : Prop :=
  forall fd op a w,
    fst (os_ioctl (k_os k) fd op a w) <> 0 ->
    k_ioctl_store k fd op a w = a.

(** The chip-select around a trace of [xevent]s. *)
Definition around_x (c : option OutputPin) (tr : list xevent)
  : list xevent :=
  match c with
  | None => tr
  | Some p =>
      Sys (EvPinWrite p true) :: tr ++ [Sys (EvPinWrite p false)]
  end.

Definition short_write_error (n : Z) (buf : slice) : error :=
  Errorf "wrote %d bytes instead of %d" [OpInt n; OpInt (Go.len buf)].

End MoreObs.

(** ** A kernel with registers

    The four parameters of an SPI device are kept in the world; a write
    request stores its argument, a read request gives it back.  [write]
    takes every byte it is given. *)

Module Registers.
Import Go Spidev Errors Env Spi More.

Record regs : Type := {
  r_mode : Z;
  r_lsb : Z;
  r_bits : Z;
  r_speed : Z
}.

Definition reset : regs :=
  {| r_mode := 0; r_lsb := 0; r_bits := 8; r_speed := 500000 |}.

Definition reg_ioctl (op : Z) (a : ioctl_arg) (w : regs) : regs :=
  match a with
  | ArgU8 v =>
      if op =? spi_IOC_WR_MODE then
        {| r_mode := v; r_lsb := r_lsb w; r_bits := r_bits w;
           r_speed := r_speed w |}
      else if op =? spi_IOC_WR_LSB_FIRST then
        {| r_mode := r_mode w; r_lsb := v; r_bits := r_bits w;
           r_speed := r_speed w |}
      else if op =? spi_IOC_WR_BITS_PER_WORD then
        {| r_mode := r_mode w; r_lsb := r_lsb w; r_bits := v;
           r_speed := r_speed w |}
      else w
  | ArgU32 v =>
      if op =? spi_IOC_WR_MAX_SPEED_HZ then
        {| r_mode := r_mode w; r_lsb := r_lsb w; r_bits := r_bits w;
           r_speed := v |}
      else w
  | ArgTransfer _ => w
  end.

Definition reg_store (op : Z) (a : ioctl_arg) (w : regs) : ioctl_arg :=
  if op =? spi_IOC_RD_MODE then ArgU8 (r_mode w)
  else if op =? spi_IOC_RD_LSB_FIRST then ArgU8 (r_lsb w)
  else if op =? spi_IOC_RD_BITS_PER_WORD then ArgU8 (r_bits w)
  else if op =? spi_IOC_RD_MAX_SPEED_HZ then ArgU32 (r_speed w)
  else a.

Definition reg_os : OS regs := {|
  os_open := fun _ _ _ w => ((3, 0), w);
  os_flock := fun _ _ w => (0, w);
  os_close := fun _ w => (0, w);
  os_ioctl := fun _ op a w => (0, reg_ioctl op a w);
  os_read := fun _ _ _ w => (([], 0), w);
  os_gpio_output := fun _ _ _ w => (inl (PinHandle 17), w);
  os_pin_write := fun _ _ w => (None, w)
|}.

Definition reg_kernel : Kernel regs := {|
  k_os := reg_os;
  k_ioctl_store := fun _ op a w => reg_store op a w;
  k_write := fun _ _ data w => ((Z.of_nat (List.length data), 0), w)
|}.

(** The kernel of [Fixed.fixed_os]: device-control calls store nothing,
    [write] takes at most [taken] bytes. *)
Definition fixed_kernel (a : Fixed.answers) (taken : Z) : Kernel unit := {|
  k_os := Fixed.fixed_os a;
  k_ioctl_store := fun _ _ x _ => x;
  k_write := fun _ _ data w =>
               ((Z.min taken (Z.of_nat (List.length data)), 0), w)
|}.

(** The pin is already claimed by somebody else. *)
Definition pin_taken : Fixed.answers := {|
  Fixed.open_fd := 3;
  Fixed.open_errno := 0;
  Fixed.flock_errno := 0;
  Fixed.close_errno := 0;
  Fixed.ioctl_errno := 0;
  Fixed.read_chunk := [];
  Fixed.read_errno := 0;
  Fixed.gpio_result := inr (Foreign "pin 17 is in use")
|}.

End Registers.

(** ** Properties of Transfer *)

Module TransferFacts.
Import Go Spidev Errors Env Spi Obs.

Lemma pin_eqb_refl p : pin_eqb p p = true.
Proof. destruct p; cbn. apply Z.eqb_refl. Qed.

Lemma len_nonneg s : 0 <= Go.len s.
Proof. unfold Go.len. lia. Qed.

Lemma len_zero_elems s : Go.len s = 0 -> elems s = [].
Proof.
  unfold Go.len. destruct (elems s); cbn [List.length]; [reflexivity|lia].
Qed.

Lemma len_pos_elems s : 0 < Go.len s -> exists b l, elems s = b :: l.
Proof.
  unfold Go.len. destruct (elems s) as [|b l]; cbn [List.length]; [lia|].
  intros _. exists b, l. reflexivity.
Qed.

(** The request code for one segment. *)
Lemma spi_IOC_MESSAGE_1 ws : spi_IOC_MESSAGE ws 1 = 0x40206B00.
Proof. destruct ws; reflexivity. Qed.

Lemma uint_spi_IOC_MESSAGE_1 ws :
  uint ws (spi_IOC_MESSAGE ws 1) = 0x40206B00.
Proof. destruct ws; reflexivity. Qed.

(** The run of [syscall]: one device-control call, whose errno decides
    the result. *)
Lemma syscall_run {W} (os : OS W) ws dev op arg w :
  exists errno w',
    syscall os ws dev op arg w =
      (errno_result errno, w',
       [EvIoctl (uint ws (fd dev)) (uint ws op) arg errno]).
Proof.
  unfold syscall, unix_Syscall_IOCTL, bind, ret, errno_result.
  destruct (os_ioctl os (uint ws (fd dev)) (uint ws op) arg w)
    as [errno w'].
  exists errno, w'.
  destruct (errno =? 0); reflexivity.
Qed.

(** The run of a body under [with_chip_select]. *)
Lemma with_chip_select_run {W A} (os : OS W) dev (body : M W A) w :
  exists w1,
    result (with_chip_select os dev body w) = result (body w1) /\
    trace (with_chip_select os dev body w)
    = around (cs dev) (trace (body w1)).
Proof.
  unfold with_chip_select, around.
  destruct (cs dev) as [p|].
  - unfold bind, OutputPin_Write, ret, result, trace.
    destruct (os_pin_write os p true w) as [r1 w1].
    exists w1.
    destruct (body w1) as [[a w2] t].
    destruct (os_pin_write os p false w2) as [r2 w3].
    cbn. split; reflexivity.
  - exists w. split; reflexivity.
Qed.

(** [Transfer] on two empty buffers: it panics on [&snd[0]], after the
    chip-select was asserted and before the deferred call deasserts
    it. *)
Lemma Transfer_run_empty {W} (os : OS W) ws dev snd rcv w :
  Go.len snd = 0 -> Go.len rcv = 0 ->
  result (Transfer os ws dev snd rcv w) = Panicked index_out_of_range /\
  trace (Transfer os ws dev snd rcv w) = around (cs dev) [].
Proof.
  intros Hs Hr. unfold Transfer.
  rewrite Hs, Hr. cbn [Z.eqb negb].
  unfold addr_of_first. rewrite (len_zero_elems _ Hs).
  match goal with
  | |- context [with_chip_select os dev ?body w] =>
      destruct (with_chip_select_run os dev body w) as [w1 [H1 H2]]
  end.
  rewrite H1, H2. split; reflexivity.
Qed.

(** [Transfer] on two non-empty buffers of the same length: one
    device-control call, for one segment, on the descriptor built from
    the buffers and the speed of the device; the result is that of the
    call. *)
Lemma Transfer_run_nonempty {W} (os : OS W) ws dev snd rcv w :
  Go.len snd = Go.len rcv -> 0 < Go.len snd ->
  exists errno,
    result (Transfer os ws dev snd rcv w) = Returned (errno_result errno) /\
    trace (Transfer os ws dev snd rcv w)
    = around (cs dev)
        [EvIoctl (uint ws (fd dev)) 0x40206B00
           (ArgTransfer {| tx_buf := uint64 (uint ws (ptr snd));
                           rx_buf := uint64 (uint ws (ptr rcv));
                           Spidev.len := uint32 (Go.len snd);
                           speed_hz := uint32 (speed dev);
                           delay_usecs := 0;
                           bits_per_word := 8;
                           cs_change := 0;
                           tx_nbits := 0;
                           rx_nbits := 0;
                           pad := 0 |})
           errno].
Proof.
  intros He Hs. unfold Transfer.
  rewrite <- He, Z.eqb_refl. cbn [negb].
  destruct (len_pos_elems snd Hs) as [b [l Hsnd]].
  assert (Hr : 0 < Go.len rcv) by lia.
  destruct (len_pos_elems rcv Hr) as [b' [l' Hrcv]].
  unfold addr_of_first. rewrite Hsnd, Hrcv.
  match goal with
  | |- context [with_chip_select os dev ?body w] =>
      destruct (with_chip_select_run os dev body w) as [w1 [H1 H2]]
  end.
  rewrite H1, H2. clear H1 H2.
  unfold bind.
  match goal with
  | |- context [syscall os ws dev ?op ?arg w1] =>
      destruct (syscall_run os ws dev op arg w1) as [errno [w' Hc]]
  end.
  rewrite Hc. exists errno.
  unfold ret, result, trace. cbn [fst Datatypes.snd app].
  rewrite uint_spi_IOC_MESSAGE_1. split; reflexivity.
Qed.

(** [Transfer] on buffers of different lengths: it returns at the
    length test. *)
Lemma Transfer_run_mismatch {W} (os : OS W) ws dev snd rcv w :
  Go.len snd <> Go.len rcv ->
  Transfer os ws dev snd rcv w
  = (Returned (Some (length_error snd rcv)), w, []).
Proof.
  intros Hne.
  unfold Transfer.
  destruct (Go.len snd =? Go.len rcv) eqn:E.
  - apply Z.eqb_eq in E. contradiction.
  - reflexivity.
Qed.

(** C1. When the two buffers differ in length, [Transfer] returns the
    length error and has made no call at all: the trace is empty, so
    there is no device-control call and no write to the chip-select, and
    the world is as it was. *)
Theorem Transfer_length_mismatch :
  forall W (os : OS W) ws dev snd rcv w,
    Go.len snd <> Go.len rcv ->
    result (Transfer os ws dev snd rcv w)
    = Returned (Some (length_error snd rcv)) /\
    trace (Transfer os ws dev snd rcv w) = [] /\
    ioctl_ops (trace (Transfer os ws dev snd rcv w)) = [] /\
    (forall p, pin_writes p (trace (Transfer os ws dev snd rcv w)) = []) /\
    world (Transfer os ws dev snd rcv w) = w.
Proof.
  intros W os ws dev snd rcv w Hne.
  rewrite (Transfer_run_mismatch os ws dev snd rcv w Hne).
  repeat split; reflexivity.
Qed.

(** C1, on the device of [Fixed.all_good] with a chip-select, a buffer
    of two bytes and a buffer of one. *)
Lemma Transfer_length_mismatch_witness :
  let os := Fixed.fixed_os Fixed.all_good in
  let dev := mkDevice 3 1000000 (Some (PinHandle 17)) in
  let snd := mkSlice 4096 [Byte.x0a; Byte.x0b] in
  let rcv := mkSlice 8192 [Byte.x00] in
  Go.len snd <> Go.len rcv /\
  result (Transfer os W64 dev snd rcv tt)
  = Returned (Some (length_error snd rcv)) /\
  trace (Transfer os W64 dev snd rcv tt) = [].
Proof.
  intros os dev snd rcv.
  assert (Hne : Go.len snd <> Go.len rcv) by (vm_compute; discriminate).
  split; [exact Hne|].
  destruct (Transfer_length_mismatch unit os W64 dev snd rcv tt Hne)
    as [H1 [H2 _]].
  split; assumption.
Defined.

(** C2. On a device with a chip-select [p], a call of [Transfer] leaves
    one of three traces.  Buffers of different lengths: no call at all.
    Two empty buffers: the chip-select is asserted and deasserted, and
    the call panics in between.  Otherwise: the chip-select is asserted,
    the one device-control call is made, the chip-select is deasserted,
    and [Transfer] returns what the device-control call gave, whatever
    its errno.  In each case every device-control call happens while the
    chip-select is asserted, and the last write to the chip-select, if
    there is one, deasserts it. *)
Theorem Transfer_chip_select_bracket :
  forall W (os : OS W) ws fd speed p snd rcv w,
    let r := Transfer os ws (mkDevice fd speed (Some p)) snd rcv w in
    ((Go.len snd <> Go.len rcv /\ trace r = [])
     \/ (Go.len snd = 0 /\ Go.len rcv = 0 /\
         result r = Panicked index_out_of_range /\
         trace r = [EvPinWrite p true; EvPinWrite p false])
     \/ (exists d errno,
           0 < Go.len snd /\ Go.len snd = Go.len rcv /\
           result r = Returned (errno_result errno) /\
           trace r = [EvPinWrite p true;
                      EvIoctl (uint ws fd) (spi_IOC_MESSAGE ws 1)
                              (ArgTransfer d) errno;
                      EvPinWrite p false]))
    /\ bracketed p false (trace r) = true
    /\ last (pin_writes p (trace r)) false = false.
Proof.
  intros W os ws fd0 speed0 p snd rcv w r.
  destruct (Z.eq_dec (Go.len snd) (Go.len rcv)) as [He|Hne].
  - destruct (Z.eq_dec (Go.len snd) 0) as [Hz|Hnz].
    + assert (Hr : Go.len rcv = 0) by lia.
      destruct (Transfer_run_empty os ws (mkDevice fd0 speed0 (Some p))
                  snd rcv w Hz Hr) as [H1 H2].
      fold r in H1, H2. cbn in H2. rewrite H2.
      split; [right; left; auto|].
      cbn. rewrite !pin_eqb_refl. split; reflexivity.
    + assert (Hp : 0 < Go.len snd) by (pose proof (len_nonneg snd); lia).
      destruct (Transfer_run_nonempty os ws (mkDevice fd0 speed0 (Some p))
                  snd rcv w He Hp) as [errno [H1 H2]].
      fold r in H1, H2. cbn in H2. rewrite H2.
      split.
      * right; right. eexists; exists errno.
        rewrite spi_IOC_MESSAGE_1. repeat split; auto.
      * cbn. rewrite !pin_eqb_refl. split; reflexivity.
  - pose proof (Transfer_run_mismatch os ws
                  (mkDevice fd0 speed0 (Some p)) snd rcv w Hne) as H.
    fold r in H. rewrite H.
    split; [left; split; [assumption|reflexivity]|].
    split; reflexivity.
Qed.

Lemma ioctl_ops_around c tr : ioctl_ops (around c tr) = ioctl_ops tr.
Proof.
  destruct c as [p|]; [|reflexivity].
  cbn. induction tr as [|e tr IH]; [reflexivity|].
  destruct e; cbn; rewrite ?IH; reflexivity.
Qed.

Lemma descriptors_around c tr : descriptors (around c tr) = descriptors tr.
Proof.
  destruct c as [p|]; [|reflexivity].
  cbn. induction tr as [|e tr IH]; [reflexivity|].
  destruct e as [| | | | |? ? [?|?|?] ?|]; cbn; rewrite ?IH; reflexivity.
Qed.

(** The device-control calls of [Transfer]: one, for one segment, when
    the buffers have the same non-zero length, and none otherwise. *)
Lemma Transfer_ioctl_ops {W} (os : OS W) ws dev snd rcv w :
  ioctl_ops (trace (Transfer os ws dev snd rcv w))
  = if (Go.len snd =? Go.len rcv) && (0 <? Go.len snd)
    then [0x40206B00] else [].
Proof.
  destruct (Go.len snd =? Go.len rcv) eqn:E.
  - apply Z.eqb_eq in E. destruct (0 <? Go.len snd) eqn:P.
    + apply Z.ltb_lt in P.
      destruct (Transfer_run_nonempty os ws dev snd rcv w E P)
        as [errno [_ H]].
      rewrite H, ioctl_ops_around. reflexivity.
    + apply Z.ltb_ge in P. pose proof (len_nonneg snd) as Hnn.
      assert (Hs : Go.len snd = 0) by lia.
      assert (Hr : Go.len rcv = 0) by lia.
      destruct (Transfer_run_empty os ws dev snd rcv w Hs Hr) as [_ H].
      rewrite H, ioctl_ops_around. reflexivity.
  - apply Z.eqb_neq in E.
    rewrite (Transfer_run_mismatch os ws dev snd rcv w E). reflexivity.
Qed.

(** The descriptors of [Transfer]: their clock rate is the speed of the
    device. *)
Lemma Transfer_descriptors_speed {W} (os : OS W) ws dev snd rcv w :
  map speed_hz (descriptors (trace (Transfer os ws dev snd rcv w)))
  = if (Go.len snd =? Go.len rcv) && (0 <? Go.len snd)
    then [uint32 (speed dev)] else [].
Proof.
  destruct (Go.len snd =? Go.len rcv) eqn:E.
  - apply Z.eqb_eq in E. destruct (0 <? Go.len snd) eqn:P.
    + apply Z.ltb_lt in P.
      destruct (Transfer_run_nonempty os ws dev snd rcv w E P)
        as [errno [_ H]].
      rewrite H, descriptors_around. reflexivity.
    + apply Z.ltb_ge in P. pose proof (len_nonneg snd) as Hnn.
      assert (Hs : Go.len snd = 0) by lia.
      assert (Hr : Go.len rcv = 0) by lia.
      destruct (Transfer_run_empty os ws dev snd rcv w Hs Hr) as [_ H].
      rewrite H, descriptors_around. reflexivity.
  - apply Z.eqb_neq in E.
    rewrite (Transfer_run_mismatch os ws dev snd rcv w E). reflexivity.
Qed.

(** A device-control call that fails is still followed by the write
    that deasserts the chip-select, and its errno is what [Transfer]
    returns. *)
Example Transfer_deasserts_after_failed_ioctl :
  let os := Fixed.fixed_os Fixed.io_error in
  let dev := mkDevice 3 1000000 (Some (PinHandle 17)) in
  let r := Transfer os W32 dev (mkSlice 4096 [Byte.x0a; Byte.x0b])
                    (mkSlice 8192 [Byte.x00; Byte.x00]) tt in
  result r = Returned (Some (Errno 5)) /\
  trace r
  = [EvPinWrite (PinHandle 17) true;
     EvIoctl 3 0x40206B00
       (ArgTransfer {| tx_buf := 4096; rx_buf := 8192; Spidev.len := 2;
                       speed_hz := 1000000; delay_usecs := 0;
                       bits_per_word := 8; cs_change := 0; tx_nbits := 0;
                       rx_nbits := 0; pad := 0 |}) 5;
     EvPinWrite (PinHandle 17) false].
Proof. split; reflexivity. Qed.

(** C4. On two empty buffers [Transfer] does not return the length
    error: the length test passes, the index expression [&snd[0]]
    panics, and the deferred call deasserts the chip-select.  No
    device-control call is made. *)
Theorem Transfer_empty_buffers_panic :
  forall W (os : OS W) ws dev p q w,
    let snd := mkSlice p [] in
    let rcv := mkSlice q [] in
    let r := Transfer os ws dev snd rcv w in
    result r = Panicked index_out_of_range /\
    result r <> Returned (Some (length_error snd rcv)) /\
    trace r = around (cs dev) [] /\
    ioctl_ops (trace r) = [].
Proof.
  intros W os ws dev p q w snd rcv r.
  destruct (Transfer_run_empty os ws dev snd rcv w eq_refl eq_refl)
    as [H1 H2].
  fold r in H1, H2. rewrite H1, H2, ioctl_ops_around.
  repeat split; try reflexivity. discriminate.
Qed.

Lemma two_power_bits_pos ws : 0 < 2 ^ bits ws.
Proof. destruct ws; reflexivity. Qed.

(** The arithmetic of [spi_IOC_MESSAGE] is that of [uint]. *)
Lemma spi_IOC_MESSAGE_wrap ws n :
  spi_IOC_MESSAGE ws n
  = (spi_IOC_MESSAGE_base + n * spi_IOC_MESSAGE_incr) mod 2 ^ bits ws.
Proof.
  unfold spi_IOC_MESSAGE, uint, wrap.
  apply Z.add_mod_idemp_r.
  pose proof (two_power_bits_pos ws). lia.
Qed.

(** C8. The request code for [n] segments is the base code 0x40006B00
    plus [n] times the increment 0x200000, as Go computes that sum in
    [uint]; it is the sum itself whenever the sum fits in a [uint], which
    covers every count up to 1535.  For one segment it is 0x40206B00 on
    both word sizes.  A [Transfer] on two buffers of the same non-zero
    length makes exactly one device-control call, with that code; any
    other [Transfer] makes none.  So no call of [Transfer] ever carries
    another code. *)
Theorem spi_IOC_MESSAGE_code :
  forall ws n,
    spi_IOC_MESSAGE_base = 0x40006B00 /\
    spi_IOC_MESSAGE_incr = 0x200000 /\
    spi_IOC_MESSAGE ws n
    = uint ws (spi_IOC_MESSAGE_base + n * spi_IOC_MESSAGE_incr) /\
    (0 <= n ->
     spi_IOC_MESSAGE_base + n * spi_IOC_MESSAGE_incr < 2 ^ bits ws ->
     spi_IOC_MESSAGE ws n
     = spi_IOC_MESSAGE_base + n * spi_IOC_MESSAGE_incr) /\
    spi_IOC_MESSAGE ws 1 = spi_IOC_MESSAGE_base + 1 * spi_IOC_MESSAGE_incr /\
    spi_IOC_MESSAGE ws 1 = 0x40206B00 /\
    forall W (os : OS W) dev snd rcv w,
      ioctl_ops (trace (Transfer os ws dev snd rcv w))
      = (if (Go.len snd =? Go.len rcv) && (0 <? Go.len snd)
         then [spi_IOC_MESSAGE ws 1] else []) /\
      Forall (fun op => op = spi_IOC_MESSAGE ws 1)
             (ioctl_ops (trace (Transfer os ws dev snd rcv w))) /\
      (List.length (ioctl_ops (trace (Transfer os ws dev snd rcv w)))
       <= 1)%nat.
Proof.
  intros ws n.
  split; [reflexivity|]. split; [reflexivity|].
  split; [apply spi_IOC_MESSAGE_wrap|].
  split.
  { intros Hn Hfit. rewrite spi_IOC_MESSAGE_wrap. apply Z.mod_small.
    split; [|exact Hfit].
    unfold spi_IOC_MESSAGE_base, spi_IOC_MESSAGE_incr. lia. }
  split; [destruct ws; reflexivity|].
  split; [apply spi_IOC_MESSAGE_1|].
  intros W os dev snd rcv w.
  rewrite Transfer_ioctl_ops, spi_IOC_MESSAGE_1.
  destruct ((Go.len snd =? Go.len rcv) && (0 <? Go.len snd)); cbn.
  - split; [reflexivity|]. split; [repeat constructor|lia].
  - split; [reflexivity|]. split; [constructor|lia].
Qed.

(** C8 at three segments on a 32-bit machine, and on a [Transfer] of two
    buffers of two bytes that the kernel refuses. *)
Lemma spi_IOC_MESSAGE_code_witness :
  let os := Fixed.fixed_os Fixed.io_error in
  let dev := mkDevice 3 1000000 (Some (PinHandle 17)) in
  let snd := mkSlice 4096 [Byte.x0a; Byte.x0b] in
  let rcv := mkSlice 8192 [Byte.x00; Byte.x00] in
  spi_IOC_MESSAGE W32 3 = 0x40606B00 /\
  spi_IOC_MESSAGE W32 1 = 0x40206B00 /\
  ioctl_ops (trace (Transfer os W32 dev snd rcv tt)) = [0x40206B00].
Proof.
  intros os dev snd rcv.
  destruct (spi_IOC_MESSAGE_code W32 3) as [_ [_ [_ [H3 [_ [H4 HT]]]]]].
  assert (H0 : 0 <= 3) by lia.
  assert (H1 : spi_IOC_MESSAGE_base + 3 * spi_IOC_MESSAGE_incr
               < 2 ^ bits W32) by reflexivity.
  split; [rewrite (H3 H0 H1); reflexivity|].
  split; [exact H4|].
  destruct (HT unit os dev snd rcv tt) as [Hops _].
  rewrite Hops, H4. reflexivity.
Defined.

(** Beyond that range the code wraps around: 1536 segments on a 32-bit
    machine give the code of zero segments. *)
Example spi_IOC_MESSAGE_wraps_at_1536 :
  spi_IOC_MESSAGE W32 1536 = 0x00006B00 /\
  spi_IOC_MESSAGE W64 1536 = 0x100006B00.
Proof. split; reflexivity. Qed.

Lemma uint_WR_MAX_SPEED_HZ ws :
  uint ws spi_IOC_WR_MAX_SPEED_HZ = spi_IOC_WR_MAX_SPEED_HZ.
Proof. destruct ws; reflexivity. Qed.

Lemma uint_WR_BITS_PER_WORD ws :
  uint ws spi_IOC_WR_BITS_PER_WORD = spi_IOC_WR_BITS_PER_WORD.
Proof. destruct ws; reflexivity. Qed.

(** The run of [SetMaxSpeed]: one device-control call that writes the
    low 32 bits of [n]. *)
Lemma SetMaxSpeed_run {W} (os : OS W) ws dev n w :
  exists errno w',
    SetMaxSpeed os ws dev n w
    = (errno_result errno, w',
       [EvIoctl (uint ws (fd dev)) spi_IOC_WR_MAX_SPEED_HZ
                (ArgU32 (n mod 2 ^ 32)) errno]).
Proof.
  unfold SetMaxSpeed, syscallU32.
  destruct (syscall_run os ws dev spi_IOC_WR_MAX_SPEED_HZ
              (ArgU32 (uint32 n)) w) as [errno [w' H]].
  exists errno, w'. rewrite H, uint_WR_MAX_SPEED_HZ. reflexivity.
Qed.

(** The run of [SetBitsPerWord]: one device-control call that writes
    the low 8 bits of [n]. *)
Lemma SetBitsPerWord_run {W} (os : OS W) ws dev n w :
  exists errno w',
    SetBitsPerWord os ws dev n w
    = (errno_result errno, w',
       [EvIoctl (uint ws (fd dev)) spi_IOC_WR_BITS_PER_WORD
                (ArgU8 (n mod 2 ^ 8)) errno]).
Proof.
  unfold SetBitsPerWord, syscallU8.
  destruct (syscall_run os ws dev spi_IOC_WR_BITS_PER_WORD
              (ArgU8 (uint8 n)) w) as [errno [w' H]].
  exists errno, w'. rewrite H, uint_WR_BITS_PER_WORD. reflexivity.
Qed.

(** C10. [SetBitsPerWord(n)] and [SetMaxSpeed(n)] test nothing: for
    every integer [n] each makes exactly one device-control call, which
    writes [n] modulo 2^8, respectively [n] modulo 2^32, and returns
    what that call gave.  So 256 bits per word is written as 0 and a
    speed of -1 as 4294967295. *)
Theorem setters_wrap_around :
  forall W (os : OS W) ws dev n w,
    (exists errno,
       trace (SetBitsPerWord os ws dev n w)
       = [EvIoctl (uint ws (fd dev)) spi_IOC_WR_BITS_PER_WORD
                  (ArgU8 (n mod 2 ^ 8)) errno] /\
       result (SetBitsPerWord os ws dev n w) = errno_result errno) /\
    (exists errno,
       trace (SetMaxSpeed os ws dev n w)
       = [EvIoctl (uint ws (fd dev)) spi_IOC_WR_MAX_SPEED_HZ
                  (ArgU32 (n mod 2 ^ 32)) errno] /\
       result (SetMaxSpeed os ws dev n w) = errno_result errno) /\
    trace (SetBitsPerWord os ws dev 256 w)
    = trace (SetBitsPerWord os ws dev 0 w) /\
    trace (SetMaxSpeed os ws dev (-1) w)
    = trace (SetMaxSpeed os ws dev 4294967295 w).
Proof.
  intros W os ws dev n w.
  split; [|split; [|split]].
  - destruct (SetBitsPerWord_run os ws dev n w) as [errno [w' H]].
    exists errno. rewrite H. split; reflexivity.
  - destruct (SetMaxSpeed_run os ws dev n w) as [errno [w' H]].
    exists errno. rewrite H. split; reflexivity.
  - reflexivity.
  - reflexivity.
Qed.

(** C3, as amended.  [SetMaxSpeed(n)] makes one device-control call,
    which writes [n] modulo 2^32 as the maximum speed kept by the
    kernel, and changes nothing in the [Device].  A [Transfer] that
    follows it builds its descriptor with the speed the [Device] was
    opened with, reduced modulo 2^32, whatever [n] was and whether or
    not [SetMaxSpeed] succeeded. *)
Theorem Transfer_speed_is_device_speed :
  forall W (os : OS W) ws dev n snd rcv w,
    let r1 := SetMaxSpeed os ws dev n w in
    let r2 := Transfer os ws dev snd rcv (world r1) in
    (exists errno,
       trace r1 = [EvIoctl (uint ws (fd dev)) spi_IOC_WR_MAX_SPEED_HZ
                           (ArgU32 (n mod 2 ^ 32)) errno] /\
       result r1 = errno_result errno) /\
    Forall (fun d => speed_hz d = uint32 (speed dev))
           (descriptors (trace r2)) /\
    map speed_hz (descriptors (trace r2))
    = if (Go.len snd =? Go.len rcv) && (0 <? Go.len snd)
      then [speed dev mod 2 ^ 32] else [].
Proof.
  intros W os ws dev n snd rcv w r1 r2.
  split.
  - destruct (SetMaxSpeed_run os ws dev n w) as [errno [w' H]].
    exists errno. unfold r1. rewrite H. split; reflexivity.
  - pose proof (Transfer_descriptors_speed os ws dev snd rcv (world r1))
      as H.
    fold r2 in H. split; [|exact H].
    apply Forall_forall. intros d Hd.
    apply (in_map speed_hz) in Hd. rewrite H in Hd.
    destruct ((Go.len snd =? Go.len rcv) && (0 <? Go.len snd));
      cbn in Hd; [|contradiction].
    destruct Hd as [Hd|[]]. symmetry. exact Hd.
Qed.

(** C3 as it was stated fails: on a device opened at 1 MHz,
    [SetMaxSpeed(500000)] succeeds and the next [Transfer] still asks
    for 1 MHz. *)
Lemma SetMaxSpeed_does_not_reach_Transfer :
  let os := Fixed.fixed_os Fixed.all_good in
  let dev := mkDevice 3 1000000 None in
  let snd := mkSlice 4096 [Byte.x0a] in
  let rcv := mkSlice 8192 [Byte.x00] in
  let r1 := SetMaxSpeed os W64 dev 500000 tt in
  let r2 := Transfer os W64 dev snd rcv (world r1) in
  result r1 = None /\
  result r2 = Returned None /\
  map speed_hz (descriptors (trace r2)) = [1000000] /\
  ~ Forall (fun d => speed_hz d = 500000) (descriptors (trace r2)).
Proof.
  cbv zeta.
  split; [reflexivity|]. split; [reflexivity|]. split; [reflexivity|].
  intros H. vm_compute in H. inversion H as [|d l Hd Hl]; subst.
  discriminate Hd.
Qed.

End TransferFacts.

(** ** Properties of Open *)

Module OpenFacts.
Import Go Spidev Errors Env Spi Obs.

(** The runs of [Open], by what [open], [flock] and [gpio.Output]
    answer. *)
Lemma Open_cases {W} (os : OS W) spiDevice speed customCS w :
  let r := Open os spiDevice speed customCS w in
  let fd := fst (fst (os_open os spiDevice O_RDWR 0 w)) in
  let e0 := snd (fst (os_open os spiDevice O_RDWR 0 w)) in
  let how := Z.lor LOCK_EX LOCK_NB in
  (e0 <> 0 /\
   trace r = [EvOpen spiDevice O_RDWR 0 fd e0] /\
   result r = (None, Some (open_error spiDevice (Errno e0))))
  \/ (e0 = 0 /\ customCS = 0 /\
      trace r = [EvOpen spiDevice O_RDWR 0 fd 0; EvFlock fd how 0] /\
      result r = (Some (mkDevice fd speed None), None))
  \/ (e0 = 0 /\ exists e1 c,
        e1 <> 0 /\
        trace r = [EvOpen spiDevice O_RDWR 0 fd 0; EvFlock fd how e1;
                   EvClose fd c] /\
        result r = (None, Some (if e1 =? EWOULDBLOCK
                                then in_use_error spiDevice
                                else open_error spiDevice (Errno e1))))
  \/ (e0 = 0 /\ customCS <> 0 /\ exists p,
        trace r = [EvOpen spiDevice O_RDWR 0 fd 0; EvFlock fd how 0;
                   EvGpioOutput customCS true false (inl p)] /\
        result r = (Some (mkDevice fd speed (Some p)), None))
  \/ (e0 = 0 /\ customCS <> 0 /\ exists err c,
        trace r = [EvOpen spiDevice O_RDWR 0 fd 0; EvFlock fd how 0;
                   EvGpioOutput customCS true false (inr err);
                   EvClose fd c] /\
        result r = (None, Some (chip_select_error customCS err))).
Proof.
  unfold Open, unix_Open, unix_Flock, unix_Close, gpio_Output, bind, ret,
    errnoErr, result, trace, open_error, in_use_error, chip_select_error.
  destruct (os_open os spiDevice O_RDWR 0 w) as [[fd0 e0] w0]. cbn.
  destruct (e0 =? 0) eqn:E0.
  2:{ apply Z.eqb_neq in E0. left. auto. }
  apply Z.eqb_eq in E0. subst e0. right.
  destruct (os_flock os fd0 6 w0) as [e1 w1]. cbn.
  destruct (e1 =? 0) eqn:E1.
  - apply Z.eqb_eq in E1. subst e1.
    destruct (customCS =? 0) eqn:EC.
    + apply Z.eqb_eq in EC. left. cbn. auto.
    + apply Z.eqb_neq in EC. right. right.
      destruct (os_gpio_output os customCS true false w1) as [[p|err] w2].
      * cbn. left. split; [reflexivity|]. split; [assumption|].
        exists p. auto.
      * destruct (os_close os fd0 w2) as [c w3]. cbn.
        right. split; [reflexivity|]. split; [assumption|].
        exists err, c. auto.
  - apply Z.eqb_neq in E1. right. left. split; [reflexivity|].
    unfold is_errno.
    destruct (os_close os fd0 w1) as [c w2] eqn:EC.
    exists e1, c. split; [assumption|].
    destruct (e1 =? EWOULDBLOCK); cbn; rewrite EC; cbn; auto.
Qed.

(** The busy error wraps nothing and differs from the two errors
    that wrap a cause. *)
Lemma in_use_error_distinct spiDevice :
  Unwrap (in_use_error spiDevice) = None /\
  (forall p e, in_use_error spiDevice <> open_error p e /\
               Unwrap (open_error p e) = Some e) /\
  (forall n e, in_use_error spiDevice <> chip_select_error n e /\
               Unwrap (chip_select_error n e) = Some e).
Proof.
  split; [reflexivity|]. split; intros a e.
  - split; [|reflexivity].
    unfold in_use_error, open_error. intros H. inversion H.
  - split; [|reflexivity].
    unfold in_use_error, chip_select_error. intros H. inversion H.
Qed.

(** C5, as amended.  When a custom chip-select is asked for and the
    device path opens, [Open] first attempts the non-blocking exclusive
    lock, as it does without a custom chip-select.  If the lock fails
    the descriptor is closed and the pin is never claimed.  Only when
    the lock is obtained does [Open] call
    [gpio.Output(customCS, true, false)]; the device then carries the
    pin, or the descriptor is closed and the chip-select error is
    returned. *)
Theorem Open_custom_cs_locks_then_claims :
  forall W (os : OS W) spiDevice speed customCS w,
    customCS <> 0 ->
    let r := Open os spiDevice speed customCS w in
    let fd := fst (fst (os_open os spiDevice O_RDWR 0 w)) in
    let e0 := snd (fst (os_open os spiDevice O_RDWR 0 w)) in
    let how := Z.lor LOCK_EX LOCK_NB in
    (e0 <> 0 /\
     trace r = [EvOpen spiDevice O_RDWR 0 fd e0] /\
     result r = (None, Some (open_error spiDevice (Errno e0))))
    \/ (e0 = 0 /\ exists e1 c,
          e1 <> 0 /\
          trace r = [EvOpen spiDevice O_RDWR 0 fd 0; EvFlock fd how e1;
                     EvClose fd c] /\
          result r = (None, Some (if e1 =? EWOULDBLOCK
                                  then in_use_error spiDevice
                                  else open_error spiDevice (Errno e1))))
    \/ (e0 = 0 /\ exists p,
          trace r = [EvOpen spiDevice O_RDWR 0 fd 0; EvFlock fd how 0;
                     EvGpioOutput customCS true false (inl p)] /\
          result r = (Some (mkDevice fd speed (Some p)), None))
    \/ (e0 = 0 /\ exists err c,
          trace r = [EvOpen spiDevice O_RDWR 0 fd 0; EvFlock fd how 0;
                     EvGpioOutput customCS true false (inr err);
                     EvClose fd c] /\
          result r = (None, Some (chip_select_error customCS err))).
Proof.
  intros W os spiDevice speed0 customCS w Hcs r fd0 e0 how.
  destruct (Open_cases os spiDevice speed0 customCS w)
    as [H|[H|[H|[H|H]]]].
  - left. exact H.
  - destruct H as [_ [H _]]. contradiction.
  - right. left. exact H.
  - right. right. left. destruct H as [H0 [_ H]]. split; assumption.
  - right. right. right. destruct H as [H0 [_ H]]. split; assumption.
Qed.

(** C5 as amended, on a free device: the lock is taken, then pin 17 is
    claimed. *)
Lemma Open_custom_cs_locks_then_claims_witness :
  let os := Fixed.fixed_os Fixed.all_good in
  let r := Open os "/dev/spidev5.1" 1000000 17 tt in
  17 <> 0 /\
  trace r = [EvOpen "/dev/spidev5.1" O_RDWR 0 3 0;
             EvFlock 3 (Z.lor LOCK_EX LOCK_NB) 0;
             EvGpioOutput 17 true false (inl (PinHandle 17))].
Proof.
  intros os r.
  assert (Hcs : 17 <> 0) by lia.
  split; [exact Hcs|].
  destruct (Open_custom_cs_locks_then_claims unit os "/dev/spidev5.1"
              1000000 17 tt Hcs) as [H|[H|[H|H]]].
  - destruct H as [H _]. exfalso. apply H. reflexivity.
  - reflexivity.
  - reflexivity.
  - reflexivity.
Defined.

(** C5 as it was stated fails: with a custom chip-select on pin 17 and
    a device that somebody else has locked, [Open] does attempt the
    lock, fails on it, and never claims the pin. *)
Lemma Open_custom_cs_attempts_lock :
  let os := Fixed.fixed_os Fixed.locked in
  let r := Open os "/dev/spidev5.1" 1000000 17 tt in
  flocks (trace r) = [(3, Z.lor LOCK_EX LOCK_NB)] /\
  flocks (trace r) <> [] /\
  trace r = [EvOpen "/dev/spidev5.1" O_RDWR 0 3 0;
             EvFlock 3 (Z.lor LOCK_EX LOCK_NB) EWOULDBLOCK;
             EvClose 3 0] /\
  result r = (None, Some (in_use_error "/dev/spidev5.1")).
Proof.
  cbv zeta. split; [reflexivity|]. split; [discriminate|].
  split; reflexivity.
Qed.

(** The earlier revision of [Open] did skip the lock with a custom
    chip-select. *)
Lemma Open_earlier_skips_lock {W} (os : OS W) spiDevice speed customCS w :
  customCS <> 0 ->
  flocks (trace (Open_earlier os spiDevice speed customCS w)) = [].
Proof.
  intros Hcs. apply Z.eqb_neq in Hcs.
  unfold Open_earlier, unix_Open, unix_Close, gpio_Output, bind, ret,
    errnoErr, trace.
  destruct (os_open os spiDevice O_RDWR 0 w) as [[fd0 e0] w0]. cbn.
  destruct (e0 =? 0); [|reflexivity].
  rewrite Hcs.
  destruct (os_gpio_output os customCS true false w0) as [[p|err] w1];
    [reflexivity|].
  destruct (os_close os fd0 w1) as [c w2]. reflexivity.
Qed.



End OpenFacts.

(** ** The layout of the transfer descriptor *)

Module LayoutFacts.
Import Go Spidev Obs.

(** C7, as amended.  The transfer descriptor consists, in order, of two
    64-bit buffer addresses, two 32-bit fields for length and speed, a
    16-bit delay, four 8-bit fields (bits per word, chip-select change,
    and the numbers of transmit and receive lines) and a 16-bit pad,
    and of nothing else.  On both word sizes the compiler places them at
    offsets 0, 8, 16, 20, 24, 26, 27, 28, 29 and 30 of a struct of 32
    bytes, which the fields fill without a gap. *)
Theorem spi_ioc_transfer_layout :
  forall ws,
    field_names spi_ioc_transfer_fields
    = ["tx_buf"; "rx_buf"; "len"; "speed_hz"; "delay_usecs";
       "bits_per_word"; "cs_change"; "tx_nbits"; "rx_nbits"; "pad"] /\
    field_widths spi_ioc_transfer_fields
    = [64; 64; 32; 32; 16; 8; 8; 8; 8; 16] /\
    fst (offsets_from ws 0 (map snd spi_ioc_transfer_fields))
    = [0; 8; 16; 20; 24; 26; 27; 28; 29; 30] /\
    struct_size ws (map snd spi_ioc_transfer_fields) = 32 /\
    fold_right Z.add 0 (field_widths spi_ioc_transfer_fields) = 8 * 32.
Proof.
  intros ws. destruct ws; repeat split; reflexivity.
Qed.

(** C7 as it was stated fails: after the delay there are not three
    8-bit fields but four and a 16-bit one; the eight fields of the
    claim would fill 29 bytes, the struct has 32. *)
Lemma spi_ioc_transfer_not_eight_fields :
  field_widths spi_ioc_transfer_fields <> [64; 64; 32; 32; 16; 8; 8; 8] /\
  List.length spi_ioc_transfer_fields = 10%nat /\
  field_names spi_ioc_transfer_fields
  <> ["tx_buf"; "rx_buf"; "len"; "speed_hz"; "delay_usecs";
      "bits_per_word"; "cs_change"; "pad"] /\
  fold_right Z.add 0 [64; 64; 32; 32; 16; 8; 8; 8] = 8 * 29 /\
  fold_right Z.add 0 (field_widths spi_ioc_transfer_fields) = 8 * 32.
Proof.
  split; [discriminate|]. split; [reflexivity|].
  split; [|split; reflexivity].
  intros H. vm_compute in H. discriminate H.
Qed.

End LayoutFacts.

(** ** Properties of Read *)

Module ReadFacts.
Import Go Spidev Errors Env Spi Obs.

Example Read_five_bytes_in_two_reads :
  Read (Fixed.fixed_os Fixed.all_good) 3
       (mkDevice 3 1000000 None)
       (mkSlice 4096 [Byte.x00; Byte.x00; Byte.x00; Byte.x00; Byte.x00]) tt
  = (Some (None,
           mkSlice 4096 [Byte.x01; Byte.x02; Byte.x03; Byte.x01; Byte.x02]),
     tt,
     [EvRead 3 4096 5 [Byte.x01; Byte.x02; Byte.x03] 0;
      EvRead 3 4099 2 [Byte.x01; Byte.x02] 0]).
Proof. reflexivity. Qed.

(** Storing [d] at index [k] of a list that has room for it. *)
Section Store.
Variable A : Type.
Implicit Types l d : list A.

Lemma length_stored l d k :
  (k + List.length d <= List.length l)%nat ->
  List.length (firstn k l ++ d ++ skipn (k + List.length d) l)
  = List.length l.
Proof.
  intros H. rewrite !length_app, length_firstn, length_skipn. lia.
Qed.

Lemma firstn_stored l d k :
  (k + List.length d <= List.length l)%nat ->
  firstn (k + List.length d)
         (firstn k l ++ d ++ skipn (k + List.length d) l)
  = firstn k l ++ d.
Proof.
  intros H. rewrite app_assoc.
  assert (Hl : List.length (firstn k l ++ d) = (k + List.length d)%nat)
    by (rewrite length_app, length_firstn; lia).
  rewrite firstn_app, Hl, Nat.sub_diag. cbn [firstn].
  rewrite app_nil_r. apply firstn_all2. lia.
Qed.

Lemma skipn_stored l d k m :
  (k + List.length d <= List.length l)%nat ->
  skipn (k + List.length d + m)
        (firstn k l ++ d ++ skipn (k + List.length d) l)
  = skipn (k + List.length d + m) l.
Proof.
  intros H. rewrite app_assoc.
  assert (Hl : List.length (firstn k l ++ d) = (k + List.length d)%nat)
    by (rewrite length_app, length_firstn; lia).
  rewrite skipn_app, Hl.
  rewrite (@skipn_all2 A _ (firstn k l ++ d)) by lia.
  cbn [app].
  replace (k + List.length d + m - (k + List.length d))%nat with m by lia.
  rewrite skipn_skipn. f_equal. lia.
Qed.

End Store.

Lemma len_slice_from buf k :
  (k <= List.length (elems buf))%nat ->
  Go.len (slice_from buf (Z.of_nat k)) = Go.len buf - Z.of_nat k.
Proof.
  intros H. unfold Go.len, slice_from. cbn [elems].
  rewrite Nat2Z.id, length_skipn. lia.
Qed.

(** The run of [unix.Read]. *)
Lemma unix_Read_run {W} (os : OS W) fd p w :
  exists data e1 w1,
    os_read os fd (ptr p) (Go.len p) w = ((data, e1), w1) /\
    unix_Read W os fd p w
    = (if e1 =? 0
       then (Z.of_nat (List.length (firstn (Z.to_nat (Go.len p)) data)),
             None, firstn (Z.to_nat (Go.len p)) data)
       else (-1, Some (Errno e1), []),
       w1,
       [EvRead fd (ptr p) (Go.len p)
               (if e1 =? 0 then firstn (Z.to_nat (Go.len p)) data else [])
               e1]).
Proof.
  unfold unix_Read, errnoErr.
  destruct (os_read os fd (ptr p) (Go.len p) w) as [[data e1] w1].
  exists data, e1, w1. split; [reflexivity|].
  destruct (e1 =? 0); reflexivity.
Qed.

Lemma last_read_errno_ok fd p count d tr :
  last_read_errno (EvRead fd p count d 0 :: tr) = last_read_errno tr.
Proof. destruct tr; reflexivity. Qed.

(** The loop of [Read] from offset [k], with more fuel than bytes left
    to read, in an environment whose reads make progress. *)
Lemma Read_loop_run {W} (os : OS W) :
  reads_make_progress os ->
  forall fuel dev buf k w,
    (k <= List.length (elems buf))%nat ->
    (List.length (elems buf) - k < fuel)%nat ->
    exists err buf' w' tr,
      Read_loop os fuel dev buf (Z.of_nat k) w = (Some (err, buf'), w', tr)
      /\ ptr buf' = ptr buf
      /\ chained (fd dev) (ptr buf) (Go.len buf) (Z.of_nat k) tr
      /\ elems buf'
         = firstn k (elems buf) ++ collected tr
           ++ skipn (k + List.length (collected tr)) (elems buf)
      /\ match err with
         | None =>
             (k + List.length (collected tr)
              = List.length (elems buf))%nat
             /\ last_read_errno tr = 0
         | Some e =>
             (k + List.length (collected tr)
              < List.length (elems buf))%nat
             /\ last_read_errno tr <> 0
             /\ e = Errno (last_read_errno tr)
         end.
Proof.
  intros Hprog.
  induction fuel as [|fuel IH]; intros dev buf k w Hk Hfuel; [lia|].
  cbn [Read_loop].
  destruct (Z.of_nat k <? Go.len buf) eqn:E.
  - apply Z.ltb_lt in E.
    assert (Hlt : (k < List.length (elems buf))%nat)
      by (unfold Go.len in E; lia).
    unfold bind.
    destruct (unix_Read_run os (fd dev) (slice_from buf (Z.of_nat k)) w)
      as [data [e1 [w1 [Hos Hrun]]]].
    rewrite Hrun. clear Hrun.
    rewrite len_slice_from in * by lia.
    cbn [ptr slice_from] in *.
    pose proof (Hprog (fd dev) (ptr buf + Z.of_nat k)
                  (Go.len buf - Z.of_nat k) w) as Hp.
    rewrite Hos in Hp. cbn [fst Datatypes.snd] in Hp.
    destruct (e1 =? 0) eqn:E1.
    + apply Z.eqb_eq in E1. subst e1.
      assert (Hdata : data <> []) by (apply Hp; lia).
      set (d := firstn (Z.to_nat (Go.len buf - Z.of_nat k)) data) in *.
      assert (Hd1 : (1 <= List.length d)%nat).
      { unfold d. rewrite length_firstn.
        destruct data as [|x data']; [contradiction|].
        cbn [List.length]. unfold Go.len. lia. }
      assert (Hd2 : (k + List.length d <= List.length (elems buf))%nat).
      { pose proof (firstn_le_length
                      (Z.to_nat (Go.len buf - Z.of_nat k)) data) as Hle.
        fold d in Hle. unfold Go.len in Hle. lia. }
      assert (Hst : elems (store buf (Z.of_nat k) d)
                    = firstn k (elems buf) ++ d
                      ++ skipn (k + List.length d) (elems buf)).
      { unfold store. cbn [elems]. rewrite Nat2Z.id. reflexivity. }
      assert (Hsl : List.length (elems (store buf (Z.of_nat k) d))
                    = List.length (elems buf)).
      { rewrite Hst. apply length_stored. exact Hd2. }
      replace (Z.of_nat k + Z.of_nat (List.length d))
        with (Z.of_nat (k + List.length d)) by lia.
      destruct (IH dev (store buf (Z.of_nat k) d) (k + List.length d)%nat
                  w1) as [err [buf' [w' [tr [HR [Hptr [Hch [Hel Herr]]]]]]]].
      { rewrite Hsl. exact Hd2. }
      { rewrite Hsl. lia. }
      rewrite HR. exists err, buf', w'. eexists. split; [reflexivity|].
      assert (Hlen : Go.len (store buf (Z.of_nat k) d) = Go.len buf)
        by (unfold Go.len; rewrite Hsl; reflexivity).
      rewrite Hlen in Hch. rewrite Hsl in Herr.
      cbn [app collected chained].
      split; [exact Hptr|].
      split.
      { repeat split; try lia. cbn [Z.eqb].
        replace (Z.of_nat k + Z.of_nat (List.length d))
          with (Z.of_nat (k + List.length d)) by lia.
        exact Hch. }
      split.
      { rewrite Hel, Hst, firstn_stored, skipn_stored by exact Hd2.
        rewrite length_app, <- !app_assoc, Nat.add_assoc.
        reflexivity. }
      rewrite last_read_errno_ok, length_app.
      destruct err as [e|].
      * destruct Herr as [H1 [H2 H3]]. repeat split; auto. lia.
      * destruct Herr as [H1 H2]. split; [lia|exact H2].
    + apply Z.eqb_neq in E1.
      exists (Some (Errno e1)). eexists. exists w1. eexists.
      split; [reflexivity|].
      cbn [app collected chained last_read_errno List.length ptr store
           elems].
      rewrite !Nat2Z.id, !Nat.add_0_r.
      split; [reflexivity|].
      split.
      { repeat split; try lia.
        destruct (e1 =? 0) eqn:E2;
          [apply Z.eqb_eq in E2; contradiction|auto]. }
      split; [reflexivity|].
      repeat split; auto.
  - apply Z.ltb_ge in E.
    assert (Heq : k = List.length (elems buf))
      by (unfold Go.len in E; lia).
    exists None, buf, w, []. split; [reflexivity|].
    cbn [collected chained last_read_errno List.length app].
    rewrite Nat.add_0_r.
    split; [reflexivity|]. split; [exact I|].
    split.
    { rewrite firstn_skipn. reflexivity. }
    split; [exact Heq|reflexivity].
Qed.

(** The loop of [Read] from offset [k], in any environment and with any
    fuel: what it has done when it stops, and when the fuel runs out. *)
Lemma Read_loop_spec {W} (os : OS W) :
  forall fuel dev buf k w,
    (k <= List.length (elems buf))%nat ->
    let r := Read_loop os fuel dev buf (Z.of_nat k) w in
    chained (fd dev) (ptr buf) (Go.len buf) (Z.of_nat k) (trace r)
    /\ (k + List.length (collected (trace r))
        <= List.length (elems buf))%nat
    /\ match result r with
       | Some (err, buf') =>
           ptr buf' = ptr buf
           /\ elems buf'
              = firstn k (elems buf) ++ collected (trace r)
                ++ skipn (k + List.length (collected (trace r)))
                         (elems buf)
           /\ match err with
              | None =>
                  (k + List.length (collected (trace r))
                   = List.length (elems buf))%nat
                  /\ last_read_errno (trace r) = 0
              | Some e =>
                  (k + List.length (collected (trace r))
                   < List.length (elems buf))%nat
                  /\ last_read_errno (trace r) <> 0
                  /\ e = Errno (last_read_errno (trace r))
              end
       | None =>
           List.length (MoreObs.reads (trace r)) = fuel
           /\ last_read_errno (trace r) = 0
       end.
Proof.
  induction fuel as [|fuel IH]; intros dev buf k w Hk r; subst r.
  { cbn. repeat split; auto. lia. }
  cbn [Read_loop].
  destruct (Z.of_nat k <? Go.len buf) eqn:E.
  - apply Z.ltb_lt in E.
    assert (Hlt : (k < List.length (elems buf))%nat)
      by (unfold Go.len in E; lia).
    unfold bind.
    destruct (unix_Read_run os (fd dev) (slice_from buf (Z.of_nat k)) w)
      as [data [e1 [w1 [Hos Hrun]]]].
    rewrite Hrun. clear Hrun Hos.
    rewrite len_slice_from in * by lia.
    cbn [ptr slice_from] in *.
    destruct (e1 =? 0) eqn:E1.
    + apply Z.eqb_eq in E1. subst e1.
      set (d := firstn (Z.to_nat (Go.len buf - Z.of_nat k)) data) in *.
      assert (Hd2 : (k + List.length d <= List.length (elems buf))%nat).
      { pose proof (firstn_le_length
                      (Z.to_nat (Go.len buf - Z.of_nat k)) data) as Hle.
        fold d in Hle. unfold Go.len in Hle. lia. }
      assert (Hst : elems (store buf (Z.of_nat k) d)
                    = firstn k (elems buf) ++ d
                      ++ skipn (k + List.length d) (elems buf)).
      { unfold store. cbn [elems]. rewrite Nat2Z.id. reflexivity. }
      assert (Hsl : List.length (elems (store buf (Z.of_nat k) d))
                    = List.length (elems buf)).
      { rewrite Hst. apply length_stored. exact Hd2. }
      assert (Hlen : Go.len (store buf (Z.of_nat k) d) = Go.len buf)
        by (unfold Go.len; rewrite Hsl; reflexivity).
      replace (Z.of_nat k + Z.of_nat (List.length d))
        with (Z.of_nat (k + List.length d)) by lia.
      pose proof (IH dev (store buf (Z.of_nat k) d)
                    (k + List.length d)%nat w1) as Hrec.
      rewrite Hsl in Hrec. specialize (Hrec Hd2). cbv zeta in Hrec.
      rewrite Hlen in Hrec.
      destruct (Read_loop os fuel dev (store buf (Z.of_nat k) d)
                  (Z.of_nat (k + List.length d)) w1) as [[res w2] t].
      unfold trace, result in *. cbn [fst snd] in *.
      destruct Hrec as [Hch [Hle Hres]].
      cbn [app collected chained].
      rewrite last_read_errno_ok, length_app.
      split.
      { repeat split; try lia. cbn [Z.eqb].
        replace (Z.of_nat k + Z.of_nat (List.length d))
          with (Z.of_nat (k + List.length d)) by lia.
        exact Hch. }
      split; [lia|].
      destruct res as [[err buf']|].
      * destruct Hres as [Hptr [Hel Herr]].
        split; [exact Hptr|].
        split.
        { rewrite Hel, Hst, firstn_stored, skipn_stored by exact Hd2.
          rewrite <- !app_assoc, Nat.add_assoc. reflexivity. }
        destruct err as [e|].
        -- destruct Herr as [H1 [H2 H3]]. repeat split; auto. lia.
        -- destruct Herr as [H1 H2]. split; [lia|exact H2].
      * destruct Hres as [H1 H2]. cbn [MoreObs.reads List.length].
        split; [lia|exact H2].
    + apply Z.eqb_neq in E1.
      unfold ret, trace, result. cbn [fst snd].
      cbn [app collected chained last_read_errno List.length ptr store
           elems].
      rewrite !Nat2Z.id, !Nat.add_0_r.
      split.
      { repeat split; try lia.
        destruct (e1 =? 0) eqn:E2;
          [apply Z.eqb_eq in E2; contradiction|auto]. }
      split; [lia|].
      repeat split; auto.
  - apply Z.ltb_ge in E.
    assert (Heq : k = List.length (elems buf))
      by (unfold Go.len in E; lia).
    unfold ret, trace, result. cbn [fst snd].
    cbn [collected chained last_read_errno List.length app].
    rewrite Nat.add_0_r.
    split; [exact I|]. split; [lia|].
    split; [reflexivity|].
    split.
    { rewrite firstn_skipn. reflexivity. }
    split; [exact Heq|reflexivity].
Qed.

(** C9.  In every environment and for every buffer, the calls of [Read]
    between the writes to the chip-select, if there is one, are reads
    only: each is given the part of the buffer that is still to be
    filled, the next one starts where the last one stopped, and a read
    that fails is the last one.  If [Read] returns no error, exactly
    [len(buf)] bytes were delivered and the buffer holds them; if it
    returns an error, it is the errno of the last read, fewer than
    [len(buf)] bytes were delivered before it, and they are in front
    of what the buffer held.  As long as [Read] has not returned it
    keeps calling: when the fuel runs out, it has made one successful
    read per unit of fuel.  And if every successful read delivers at
    least one byte, [Read] returns with any fuel above [len(buf)]. *)
Theorem Read_until_full_or_error :
  forall W (os : OS W) fuel dev buf w,
    let r := Read os fuel dev buf w in
    (exists tr,
       trace r = around (cs dev) tr
       /\ chained (fd dev) (ptr buf) (Go.len buf) 0 tr
       /\ (List.length (collected tr) <= List.length (elems buf))%nat
       /\ match result r with
          | Some (None, buf') =>
              List.length (collected tr) = List.length (elems buf)
              /\ last_read_errno tr = 0
              /\ ptr buf' = ptr buf
              /\ elems buf' = collected tr
          | Some (Some e, buf') =>
              (List.length (collected tr) < List.length (elems buf))%nat
              /\ last_read_errno tr <> 0
              /\ e = Errno (last_read_errno tr)
              /\ ptr buf' = ptr buf
              /\ elems buf'
                 = collected tr
                   ++ skipn (List.length (collected tr)) (elems buf)
          | None =>
              List.length (MoreObs.reads tr) = fuel
              /\ last_read_errno tr = 0
          end)
    /\ (reads_make_progress os ->
        (List.length (elems buf) < fuel)%nat ->
        exists err buf', result r = Some (err, buf')).
Proof.
  intros W os fuel dev buf w r. unfold r, Read.
  destruct (TransferFacts.with_chip_select_run os dev
              (Read_loop os fuel dev buf 0) w) as [w1 [H1 H2]].
  rewrite H1, H2. clear H1 H2.
  split.
  - pose proof (Read_loop_spec os fuel dev buf 0%nat w1 (Nat.le_0_l _))
      as Hspec.
    cbv zeta in Hspec. change (Z.of_nat 0) with 0 in Hspec.
    destruct Hspec as [Hch [Hle Hres]].
    exists (trace (Read_loop os fuel dev buf 0 w1)).
    split; [reflexivity|]. split; [exact Hch|].
    cbn [Nat.add firstn app] in Hle, Hres.
    split; [exact Hle|].
    destruct (result (Read_loop os fuel dev buf 0 w1))
      as [[[e|] buf']|].
    + destruct Hres as [Hptr [Hel [Ha [Hb Hc]]]]. repeat split; auto.
    + destruct Hres as [Hptr [Hel [Ha Hb]]]. repeat split; auto.
      rewrite Hel, skipn_all2 by lia. apply app_nil_r.
    + exact Hres.
  - intros Hprog Hfuel.
    destruct (Read_loop_run os Hprog fuel dev buf 0%nat w1)
      as [err [buf' [w' [tr [HR _]]]]]; [lia|lia|].
    change (Z.of_nat 0) with 0 in HR.
    exists err, buf'. rewrite HR. reflexivity.
Qed.

(** C9 on a buffer of five bytes, in the environment whose reads
    deliver three bytes at most: [Read] returns, after two reads. *)
Lemma Read_until_full_or_error_witness :
  let os := Fixed.fixed_os Fixed.all_good in
  let dev := mkDevice 3 1000000 (Some (PinHandle 17)) in
  let buf :=
    mkSlice 4096 [Byte.x00; Byte.x00; Byte.x00; Byte.x00; Byte.x00] in
  reads_make_progress os /\
  (List.length (elems buf) < 6)%nat /\
  (exists err buf', result (Read os 6 dev buf tt) = Some (err, buf')) /\
  exists tr,
    trace (Read os 6 dev buf tt) = around (cs dev) tr
    /\ chained (fd dev) (ptr buf) (Go.len buf) 0 tr.
Proof.
  intros os dev buf.
  assert (Hprog : reads_make_progress os).
  { intros fd0 p count w Hc He. cbn. discriminate. }
  assert (Hfuel : (List.length (elems buf) < 6)%nat) by (cbn; lia).
  split; [exact Hprog|]. split; [exact Hfuel|].
  destruct (Read_until_full_or_error unit os 6%nat dev buf tt)
    as [[tr [H1 [H2 _]]] Hterm].
  split; [exact (Hterm Hprog Hfuel)|].
  exists tr. split; assumption.
Defined.

(** Without that condition the loop need not end: at end of file every
    read gives zero bytes and no error, and [Read] on a buffer of one
    byte runs out of any fuel. *)
Lemma Read_at_eof_never_returns :
  forall fuel,
    result (Read (Fixed.fixed_os Fixed.at_eof) fuel
                 (mkDevice 3 1000000 None) (mkSlice 4096 [Byte.x00]) tt)
    = None.
Proof.
  unfold Read, with_chip_select. cbn [cs].
  induction fuel as [|fuel IH]; [reflexivity|].
  cbn [Read_loop]. unfold bind, unix_Read, result in *.
  cbn. cbn in IH.
  change (firstn (Pos.to_nat 1) (@nil Byte.byte)) with (@nil Byte.byte).
  change (store (mkSlice 4096 [Byte.x00]) 0 [])
    with (mkSlice 4096 [Byte.x00]).
  change (Z.of_nat (@List.length Byte.byte [])) with 0.
  destruct (Read_loop (Fixed.fixed_os Fixed.at_eof) fuel
              (mkDevice 3 1000000 None) (mkSlice 4096 [Byte.x00]) 0 tt)
    as [[r w'] t].
  cbn in *. exact IH.
Qed.

End ReadFacts.

(** ** Properties of the accessors *)

Module AccessorFacts.
Import Go Spidev Errors Env Spi Obs More MoreObs.

Lemma uint_small ws c : 0 <= c < 2 ^ 32 -> uint ws c = c.
Proof.
  intros H. unfold uint, wrap. apply Z.mod_small.
  destruct ws; cbn [bits]; lia.
Qed.

Lemma errno_result_None e : errno_result e = None <-> e = 0.
Proof.
  unfold errno_result. destruct (e =? 0) eqn:E.
  - apply Z.eqb_eq in E. tauto.
  - apply Z.eqb_neq in E. split; [discriminate|contradiction].
Qed.

(** The run of [syscall], in terms of the oracle. *)
Lemma syscall_exact {W} (os : OS W) ws dev op arg w :
  syscall os ws dev op arg w
  = (errno_result
       (fst (os_ioctl os (uint ws (fd dev)) (uint ws op) arg w)),
     snd (os_ioctl os (uint ws (fd dev)) (uint ws op) arg w),
     [EvIoctl (uint ws (fd dev)) (uint ws op) arg
        (fst (os_ioctl os (uint ws (fd dev)) (uint ws op) arg w))]).
Proof.
  unfold syscall, unix_Syscall_IOCTL, bind, ret, errno_result.
  destruct (os_ioctl os (uint ws (fd dev)) (uint ws op) arg w)
    as [errno w'].
  cbn [fst snd]. destruct (errno =? 0); reflexivity.
Qed.

Lemma int_small ws n : 0 <= n < 2 ^ 31 -> int ws n = n.
Proof.
  intros H. unfold int.
  assert (Hm : n mod 2 ^ bits ws = n)
    by (apply Z.mod_small; destruct ws; cbn [bits]; lia).
  rewrite Hm.
  destruct (n <? 2 ^ (bits ws - 1)) eqn:E; [reflexivity|].
  apply Z.ltb_ge in E. destruct ws; cbn [bits] in E; lia.
Qed.

Example SetMode_Mode_on_registers :
  let k := Registers.reg_kernel in
  let dev := mkDevice 3 1000000 None in
  let r1 := SetMode k W64 dev 3 Registers.reset in
  result r1 = None /\
  result (Mode k W64 dev (world r1)) = (3, None) /\
  trace (Mode k W64 dev (world r1))
  = [EvIoctl 3 spi_IOC_RD_MODE (ArgU8 0) 0].
Proof. repeat split; reflexivity. Qed.

Section Runs.

Variable W : Type.
Variable k : Kernel W.
Variable ws : wordsize.
Variable dev : Device.

Let os : OS W := k_os k.
Let fd' : Z := uint ws (fd dev).

(** A write accessor: one device-control call. *)
Lemma syscallU8_exact op x w :
  0 <= op < 2 ^ 32 ->
  syscallU8 W os ws dev op x w
  = (errno_result (fst (os_ioctl os fd' op (ArgU8 x) w)),
     snd (os_ioctl os fd' op (ArgU8 x) w),
     [EvIoctl fd' op (ArgU8 x) (fst (os_ioctl os fd' op (ArgU8 x) w))]).
Proof.
  intros Hop. unfold syscallU8. rewrite syscall_exact, (uint_small ws op Hop).
  reflexivity.
Qed.

Lemma syscallU32_exact op x w :
  0 <= op < 2 ^ 32 ->
  syscallU32 W os ws dev op x w
  = (errno_result (fst (os_ioctl os fd' op (ArgU32 x) w)),
     snd (os_ioctl os fd' op (ArgU32 x) w),
     [EvIoctl fd' op (ArgU32 x) (fst (os_ioctl os fd' op (ArgU32 x) w))]).
Proof.
  intros Hop. unfold syscallU32.
  rewrite syscall_exact, (uint_small ws op Hop). reflexivity.
Qed.

(** A read accessor: one device-control call, and the variable after
    it. *)
Lemma syscallU8_load_exact op x w :
  0 <= op < 2 ^ 32 ->
  syscallU8_load W k ws dev op x w
  = ((loadU8 (k_ioctl_store k fd' op (ArgU8 x) w) x,
      errno_result (fst (os_ioctl os fd' op (ArgU8 x) w))),
     snd (os_ioctl os fd' op (ArgU8 x) w),
     [EvIoctl fd' op (ArgU8 x) (fst (os_ioctl os fd' op (ArgU8 x) w))]).
Proof.
  intros Hop. unfold syscallU8_load.
  fold os. rewrite (syscallU8_exact op x w Hop), (uint_small ws op Hop).
  reflexivity.
Qed.

Lemma syscallU32_load_exact op x w :
  0 <= op < 2 ^ 32 ->
  syscallU32_load W k ws dev op x w
  = ((loadU32 (k_ioctl_store k fd' op (ArgU32 x) w) x,
      errno_result (fst (os_ioctl os fd' op (ArgU32 x) w))),
     snd (os_ioctl os fd' op (ArgU32 x) w),
     [EvIoctl fd' op (ArgU32 x) (fst (os_ioctl os fd' op (ArgU32 x) w))]).
Proof.
  intros Hop. unfold syscallU32_load.
  fold os. rewrite (syscallU32_exact op x w Hop), (uint_small ws op Hop).
  reflexivity.
Qed.

Lemma Mode_exact w :
  Mode k ws dev w
  = ((loadU8 (k_ioctl_store k fd' spi_IOC_RD_MODE (ArgU8 0) w) 0,
      errno_result (fst (os_ioctl os fd' spi_IOC_RD_MODE (ArgU8 0) w))),
     snd (os_ioctl os fd' spi_IOC_RD_MODE (ArgU8 0) w),
     [EvIoctl fd' spi_IOC_RD_MODE (ArgU8 0)
        (fst (os_ioctl os fd' spi_IOC_RD_MODE (ArgU8 0) w))]).
Proof.
  unfold Mode, bind.
  rewrite syscallU8_load_exact by (cbv; split; [discriminate|reflexivity]).
  reflexivity.
Qed.

Lemma LSBFirst_exact w :
  LSBFirst k ws dev w
  = ((negb (loadU8 (k_ioctl_store k fd' spi_IOC_RD_LSB_FIRST (ArgU8 0) w) 0
            =? 0),
      errno_result
        (fst (os_ioctl os fd' spi_IOC_RD_LSB_FIRST (ArgU8 0) w))),
     snd (os_ioctl os fd' spi_IOC_RD_LSB_FIRST (ArgU8 0) w),
     [EvIoctl fd' spi_IOC_RD_LSB_FIRST (ArgU8 0)
        (fst (os_ioctl os fd' spi_IOC_RD_LSB_FIRST (ArgU8 0) w))]).
Proof.
  unfold LSBFirst, bind.
  rewrite syscallU8_load_exact by (cbv; split; [discriminate|reflexivity]).
  destruct (loadU8 _ 0 =? 0); reflexivity.
Qed.

Lemma BitsPerWord_exact w :
  BitsPerWord k ws dev w
  = ((int ws
        (loadU8 (k_ioctl_store k fd' spi_IOC_RD_BITS_PER_WORD (ArgU8 0) w)
                0),
      errno_result
        (fst (os_ioctl os fd' spi_IOC_RD_BITS_PER_WORD (ArgU8 0) w))),
     snd (os_ioctl os fd' spi_IOC_RD_BITS_PER_WORD (ArgU8 0) w),
     [EvIoctl fd' spi_IOC_RD_BITS_PER_WORD (ArgU8 0)
        (fst (os_ioctl os fd' spi_IOC_RD_BITS_PER_WORD (ArgU8 0) w))]).
Proof.
  unfold BitsPerWord, bind.
  rewrite syscallU8_load_exact by (cbv; split; [discriminate|reflexivity]).
  reflexivity.
Qed.

Lemma MaxSpeed_exact w :
  MaxSpeed k ws dev w
  = ((int ws
        (loadU32 (k_ioctl_store k fd' spi_IOC_RD_MAX_SPEED_HZ (ArgU32 0) w)
                 0),
      errno_result
        (fst (os_ioctl os fd' spi_IOC_RD_MAX_SPEED_HZ (ArgU32 0) w))),
     snd (os_ioctl os fd' spi_IOC_RD_MAX_SPEED_HZ (ArgU32 0) w),
     [EvIoctl fd' spi_IOC_RD_MAX_SPEED_HZ (ArgU32 0)
        (fst (os_ioctl os fd' spi_IOC_RD_MAX_SPEED_HZ (ArgU32 0) w))]).
Proof.
  unfold MaxSpeed, bind.
  rewrite syscallU32_load_exact by (cbv; split; [discriminate|reflexivity]).
  reflexivity.
Qed.

Lemma SetMode_exact mode w :
  SetMode k ws dev mode w
  = (errno_result (fst (os_ioctl os fd' spi_IOC_WR_MODE (ArgU8 mode) w)),
     snd (os_ioctl os fd' spi_IOC_WR_MODE (ArgU8 mode) w),
     [EvIoctl fd' spi_IOC_WR_MODE (ArgU8 mode)
        (fst (os_ioctl os fd' spi_IOC_WR_MODE (ArgU8 mode) w))]).
Proof.
  unfold SetMode. fold os.
  apply syscallU8_exact. cbv; split; [discriminate|reflexivity].
Qed.

Lemma SetLSBFirst_exact (lsb : bool) w :
  let b := if lsb then 1 else 0 in
  SetLSBFirst k ws dev lsb w
  = (errno_result (fst (os_ioctl os fd' spi_IOC_WR_LSB_FIRST (ArgU8 b) w)),
     snd (os_ioctl os fd' spi_IOC_WR_LSB_FIRST (ArgU8 b) w),
     [EvIoctl fd' spi_IOC_WR_LSB_FIRST (ArgU8 b)
        (fst (os_ioctl os fd' spi_IOC_WR_LSB_FIRST (ArgU8 b) w))]).
Proof.
  intros b. unfold SetLSBFirst. fold os. fold b.
  apply syscallU8_exact. cbv; split; [discriminate|reflexivity].
Qed.

Lemma SetBitsPerWord_exact n w :
  SetBitsPerWord os ws dev n w
  = (errno_result
       (fst (os_ioctl os fd' spi_IOC_WR_BITS_PER_WORD (ArgU8 (uint8 n)) w)),
     snd (os_ioctl os fd' spi_IOC_WR_BITS_PER_WORD (ArgU8 (uint8 n)) w),
     [EvIoctl fd' spi_IOC_WR_BITS_PER_WORD (ArgU8 (uint8 n))
        (fst (os_ioctl os fd' spi_IOC_WR_BITS_PER_WORD
                (ArgU8 (uint8 n)) w))]).
Proof.
  unfold SetBitsPerWord.
  apply syscallU8_exact. cbv; split; [discriminate|reflexivity].
Qed.

Lemma SetMaxSpeed_exact n w :
  SetMaxSpeed os ws dev n w
  = (errno_result
       (fst (os_ioctl os fd' spi_IOC_WR_MAX_SPEED_HZ (ArgU32 (uint32 n)) w)),
     snd (os_ioctl os fd' spi_IOC_WR_MAX_SPEED_HZ (ArgU32 (uint32 n)) w),
     [EvIoctl fd' spi_IOC_WR_MAX_SPEED_HZ (ArgU32 (uint32 n))
        (fst (os_ioctl os fd' spi_IOC_WR_MAX_SPEED_HZ
                (ArgU32 (uint32 n)) w))]).
Proof.
  unfold SetMaxSpeed.
  apply syscallU32_exact. cbv; split; [discriminate|reflexivity].
Qed.

End Runs.

Lemma int_W64 n : 0 <= n < 2 ^ 32 -> int W64 n = n.
Proof.
  intros H. unfold int. cbn [bits].
  rewrite Z.mod_small by lia.
  destruct (n <? 2 ^ (64 - 1)) eqn:E; [reflexivity|].
  apply Z.ltb_ge in E. lia.
Qed.

Lemma int_W32_round n :
  - 2 ^ 31 <= n < 2 ^ 31 -> int W32 (n mod 2 ^ 32) = n.
Proof.
  intros H. unfold int. cbn [bits].
  rewrite Z.mod_mod by lia.
  destruct (Z_lt_le_dec n 0) as [Hneg|Hpos].
  - assert (Hm : n mod 2 ^ 32 = n + 2 ^ 32).
    { symmetry. apply (Z.mod_unique _ _ (-1)); lia. }
    rewrite Hm.
    destruct (n + 2 ^ 32 <? 2 ^ (32 - 1)) eqn:E.
    + apply Z.ltb_lt in E. lia.
    + lia.
  - rewrite Z.mod_small by lia.
    destruct (n <? 2 ^ (32 - 1)) eqn:E; [reflexivity|].
    apply Z.ltb_ge in E. lia.
Qed.

Lemma loadU8_range out : 0 <= loadU8 out 0 < 256.
Proof.
  unfold loadU8, uint8, wrap.
  destruct out as [v|v|d]; try lia.
  apply Z.mod_pos_bound. lia.
Qed.

Lemma loadU32_range out : 0 <= loadU32 out 0 < 2 ^ 32.
Proof.
  unfold loadU32, uint32, wrap.
  destruct out as [v|v|d]; try lia.
  apply Z.mod_pos_bound. lia.
Qed.

(** X1. In a kernel that keeps the mode, a successful [SetMode(m)]
    followed by [Mode()] gives [m] back, without error. *)
Theorem SetMode_then_Mode :
  forall W (k : Kernel W) ws dev m w,
    keeps_parameter k spi_IOC_WR_MODE spi_IOC_RD_MODE ArgU8 ->
    0 <= m < 256 ->
    result (SetMode k ws dev m w) = None ->
    result (Mode k ws dev (world (SetMode k ws dev m w))) = (m, None).
Proof.
  intros W k ws dev m w Hk Hm Hset.
  rewrite SetMode_exact in *. unfold result, world in *.
  cbn [fst snd] in *. apply errno_result_None in Hset.
  destruct (Hk (uint ws (fd dev)) m 0 w Hset) as [Ha Hb].
  rewrite Mode_exact. cbn [fst snd]. rewrite Ha, Hb.
  cbn [loadU8]. unfold uint8, wrap. rewrite Z.mod_small by lia.
  reflexivity.
Qed.

Lemma registers_keep_mode :
  keeps_parameter Registers.reg_kernel
    spi_IOC_WR_MODE spi_IOC_RD_MODE ArgU8.
Proof. intros fd0 v x w _. split; reflexivity. Qed.

Lemma SetMode_then_Mode_witness :
  let k := Registers.reg_kernel in
  let dev := mkDevice 3 1000000 None in
  result (Mode k W32 dev (world (SetMode k W32 dev 2 Registers.reset)))
  = (2, None).
Proof.
  intros k dev.
  apply (SetMode_then_Mode _ k W32 dev 2 Registers.reset
           registers_keep_mode).
  - lia.
  - reflexivity.
Defined.

(** X2. [SetLSBFirst(b)] makes one device-control call that writes the
    byte 1 for [true] and the byte 0 for [false], and returns what the
    call gave.  [LSBFirst()] returns [true] exactly when the byte that
    the kernel stored is not zero.  So in a kernel that keeps the bit
    order, a successful [SetLSBFirst(b)] followed by [LSBFirst()] gives
    [b] back, without error. *)
Theorem SetLSBFirst_then_LSBFirst :
  forall W (k : Kernel W) ws dev (b : bool) w,
    (exists errno,
       trace (SetLSBFirst k ws dev b w)
       = [EvIoctl (uint ws (fd dev)) spi_IOC_WR_LSB_FIRST
                  (ArgU8 (if b then 1 else 0)) errno] /\
       result (SetLSBFirst k ws dev b w) = errno_result errno) /\
    (let stored :=
       loadU8 (k_ioctl_store k (uint ws (fd dev)) spi_IOC_RD_LSB_FIRST
                 (ArgU8 0) w) 0 in
     (fst (result (LSBFirst k ws dev w)) = true <-> stored <> 0) /\
     (fst (result (LSBFirst k ws dev w)) = false <-> stored = 0)) /\
    (keeps_parameter k spi_IOC_WR_LSB_FIRST spi_IOC_RD_LSB_FIRST ArgU8 ->
     result (SetLSBFirst k ws dev b w) = None ->
     result (LSBFirst k ws dev (world (SetLSBFirst k ws dev b w)))
     = (b, None)).
Proof.
  intros W k ws dev b w.
  split; [|split].
  - rewrite SetLSBFirst_exact. eexists. split; reflexivity.
  - rewrite LSBFirst_exact. unfold result. cbn [fst]. cbv zeta.
    destruct (loadU8 _ 0 =? 0) eqn:E; cbn [negb].
    + apply Z.eqb_eq in E. rewrite E.
      repeat split; intros; try discriminate; try reflexivity.
      contradiction.
    + apply Z.eqb_neq in E.
      repeat split; intros; try discriminate; try reflexivity;
        try assumption. contradiction.
  - intros Hk Hset.
    rewrite SetLSBFirst_exact in *. unfold result, world in *.
    cbn [fst snd] in *. apply errno_result_None in Hset.
    destruct (Hk (uint ws (fd dev)) (if b then 1 else 0) 0 w Hset)
      as [Ha Hb].
    rewrite LSBFirst_exact. cbn [fst snd]. rewrite Ha, Hb.
    destruct b; reflexivity.
Qed.

Lemma registers_keep_lsb :
  keeps_parameter Registers.reg_kernel
    spi_IOC_WR_LSB_FIRST spi_IOC_RD_LSB_FIRST ArgU8.
Proof. intros fd0 v x w _. split; reflexivity. Qed.

(** X2 on the kernel with registers: [true] is written as 1 and read
    back, and a stored byte of 255 is read as [true]. *)
Lemma SetLSBFirst_then_LSBFirst_witness :
  let k := Registers.reg_kernel in
  let dev := mkDevice 3 1000000 None in
  let w255 := {| Registers.r_mode := 0; Registers.r_lsb := 255;
                 Registers.r_bits := 8; Registers.r_speed := 500000 |} in
  trace (SetLSBFirst k W32 dev true Registers.reset)
  = [EvIoctl 3 spi_IOC_WR_LSB_FIRST (ArgU8 1) 0] /\
  result (LSBFirst k W32 dev
            (world (SetLSBFirst k W32 dev true Registers.reset)))
  = (true, None) /\
  fst (result (LSBFirst k W32 dev w255)) = true.
Proof.
  intros k dev w255.
  destruct (SetLSBFirst_then_LSBFirst _ k W32 dev true Registers.reset)
    as [[errno [Ht _]] [_ Hround]].
  split; [reflexivity|].
  split; [apply (Hround registers_keep_lsb); reflexivity|].
  destruct (SetLSBFirst_then_LSBFirst _ k W32 dev true w255)
    as [_ [[Hnz _] _]].
  apply Hnz. discriminate.
Defined.

(** X3. In a kernel that keeps the word size, a successful
    [SetBitsPerWord(n)] followed by [BitsPerWord()] gives [n] modulo 256:
    [n] itself only when it is between 0 and 255. *)
Theorem SetBitsPerWord_then_BitsPerWord :
  forall W (k : Kernel W) ws dev n w,
    keeps_parameter k spi_IOC_WR_BITS_PER_WORD spi_IOC_RD_BITS_PER_WORD
                    ArgU8 ->
    result (SetBitsPerWord (k_os k) ws dev n w) = None ->
    result (BitsPerWord k ws dev
              (world (SetBitsPerWord (k_os k) ws dev n w)))
    = (n mod 256, None).
Proof.
  intros W k ws dev n w Hk Hset.
  rewrite SetBitsPerWord_exact in *. unfold result, world in *.
  cbn [fst snd] in *. apply errno_result_None in Hset.
  destruct (Hk (uint ws (fd dev)) (uint8 n) 0 w Hset) as [Ha Hb].
  rewrite BitsPerWord_exact. cbn [fst snd]. rewrite Ha, Hb.
  cbn [loadU8]. unfold uint8, wrap.
  change (2 ^ 8) with 256. rewrite Z.mod_mod by lia.
  rewrite int_small; [reflexivity|].
  pose proof (Z.mod_pos_bound n 256). lia.
Qed.

Lemma registers_keep_bits :
  keeps_parameter Registers.reg_kernel
    spi_IOC_WR_BITS_PER_WORD spi_IOC_RD_BITS_PER_WORD ArgU8.
Proof. intros fd0 v x w _. split; reflexivity. Qed.

Lemma SetBitsPerWord_then_BitsPerWord_witness :
  let k := Registers.reg_kernel in
  let dev := mkDevice 3 1000000 None in
  result (BitsPerWord k W64 dev
            (world (SetBitsPerWord (k_os k) W64 dev 264 Registers.reset)))
  = (8, None).
Proof.
  intros k dev.
  apply (SetBitsPerWord_then_BitsPerWord _ k W64 dev 264 Registers.reset
           registers_keep_bits).
  reflexivity.
Defined.

(** X4. In a kernel that keeps the maximum speed, a successful
    [SetMaxSpeed(n)] followed by [MaxSpeed()] gives the low 32 bits of
    [n] converted back to [int].  With a 64-bit [int] that is [n] modulo
    2^32; with a 32-bit [int] it is [n] itself, for every [int] [n]. *)
Theorem SetMaxSpeed_then_MaxSpeed :
  forall W (k : Kernel W) ws dev n w,
    keeps_parameter k spi_IOC_WR_MAX_SPEED_HZ spi_IOC_RD_MAX_SPEED_HZ
                    ArgU32 ->
    result (SetMaxSpeed (k_os k) ws dev n w) = None ->
    let r := result (MaxSpeed k ws dev
                       (world (SetMaxSpeed (k_os k) ws dev n w))) in
    r = (int ws (n mod 2 ^ 32), None) /\
    match ws with
    | W64 => fst r = n mod 2 ^ 32
    | W32 => - 2 ^ 31 <= n < 2 ^ 31 -> fst r = n
    end.
Proof.
  intros W k ws dev n w Hk Hset r.
  assert (Hr : r = (int ws (n mod 2 ^ 32), None)).
  { unfold r. rewrite SetMaxSpeed_exact in *. unfold result, world in *.
    cbn [fst snd] in *. apply errno_result_None in Hset.
    destruct (Hk (uint ws (fd dev)) (uint32 n) 0 w Hset) as [Ha Hb].
    rewrite MaxSpeed_exact. cbn [fst snd]. rewrite Ha, Hb.
    cbn [loadU32]. unfold uint32, wrap. rewrite Z.mod_mod by lia.
    reflexivity. }
  split; [exact Hr|]. rewrite Hr. cbn [fst].
  destruct ws.
  - intros Hn. apply int_W32_round. exact Hn.
  - apply int_W64. apply Z.mod_pos_bound. lia.
Qed.

Lemma registers_keep_speed :
  keeps_parameter Registers.reg_kernel
    spi_IOC_WR_MAX_SPEED_HZ spi_IOC_RD_MAX_SPEED_HZ ArgU32.
Proof. intros fd0 v x w _. split; reflexivity. Qed.

Lemma SetMaxSpeed_then_MaxSpeed_witness :
  let k := Registers.reg_kernel in
  let dev := mkDevice 3 1000000 None in
  result (MaxSpeed k W32 dev
            (world (SetMaxSpeed (k_os k) W32 dev (-1) Registers.reset)))
  = (-1, None) /\
  result (MaxSpeed k W64 dev
            (world (SetMaxSpeed (k_os k) W64 dev (-1) Registers.reset)))
  = (4294967295, None).
Proof.
  intros k dev. split.
  - destruct (SetMaxSpeed_then_MaxSpeed _ k W32 dev (-1) Registers.reset
                registers_keep_speed eq_refl) as [H _].
    exact H.
  - destruct (SetMaxSpeed_then_MaxSpeed _ k W64 dev (-1) Registers.reset
                registers_keep_speed eq_refl) as [H _].
    exact H.
Defined.

(** X5. Whatever the kernel stores, [Mode] and [BitsPerWord] return a
    number between 0 and 255.  [MaxSpeed] returns the 32 bits that the
    kernel stored converted to [int]: a number between 0 and 2^32 - 1
    with a 64-bit [int], but one between -2^31 and 2^31 - 1 with a
    32-bit [int], negative when the stored speed is 2^31 or more; either
    way it agrees with the stored speed modulo 2^32. *)
Theorem getters_ranges :
  forall W (k : Kernel W) ws dev w,
    0 <= fst (result (Mode k ws dev w)) < 256 /\
    0 <= fst (result (BitsPerWord k ws dev w)) < 256 /\
    let stored :=
      loadU32 (k_ioctl_store k (uint ws (fd dev)) spi_IOC_RD_MAX_SPEED_HZ
                 (ArgU32 0) w) 0 in
    let v := fst (result (MaxSpeed k ws dev w)) in
    v mod 2 ^ 32 = stored /\
    match ws with
    | W64 => v = stored
    | W32 => - 2 ^ 31 <= v < 2 ^ 31 /\ (v < 0 <-> 2 ^ 31 <= stored)
    end.
Proof.
  intros W k ws dev w.
  rewrite Mode_exact, BitsPerWord_exact, MaxSpeed_exact.
  unfold result. cbn [fst].
  split; [apply loadU8_range|].
  split.
  { rewrite int_small; [apply loadU8_range|].
    pose proof (loadU8_range
                  (k_ioctl_store k (uint ws (fd dev))
                     spi_IOC_RD_BITS_PER_WORD (ArgU8 0) w)). lia. }
  cbv zeta.
  pose proof (loadU32_range
                (k_ioctl_store k (uint ws (fd dev))
                   spi_IOC_RD_MAX_SPEED_HZ (ArgU32 0) w)) as Hr.
  set (stored := loadU32 _ 0) in *.
  destruct ws.
  - unfold int. cbn [bits]. rewrite (Z.mod_small stored) by lia.
    destruct (stored <? 2 ^ (32 - 1)) eqn:E.
    + apply Z.ltb_lt in E. rewrite Z.mod_small by lia.
      change (2 ^ (32 - 1)) with (2 ^ 31) in E. lia.
    + apply Z.ltb_ge in E. change (2 ^ (32 - 1)) with (2 ^ 31) in E.
      split; [|lia].
      symmetry. apply (Z.mod_unique _ _ (-1)); lia.
  - rewrite int_W64 by exact Hr. split; [|reflexivity].
    apply Z.mod_small. exact Hr.
Qed.

(** The speed 3 GHz read back with a 32-bit [int]. *)
Example MaxSpeed_negative_on_32_bits :
  let k := Registers.reg_kernel in
  let dev := mkDevice 3 1000000 None in
  let w := {| Registers.r_mode := 0; Registers.r_lsb := 0;
              Registers.r_bits := 8; Registers.r_speed := 3000000000 |} in
  result (MaxSpeed k W32 dev w) = (-1294967296, None) /\
  result (MaxSpeed k W64 dev w) = (3000000000, None).
Proof. split; reflexivity. Qed.

(** X6. In a kernel that stores nothing when a device-control call
    fails, a read accessor that returns an error returns the zero value
    with it: 0 for [Mode], [BitsPerWord] and [MaxSpeed], [false] for
    [LSBFirst]. *)
Theorem getters_zero_on_error :
  forall W (k : Kernel W) ws dev w,
    stores_nothing_on_error k ->
    (snd (result (Mode k ws dev w)) <> None ->
     fst (result (Mode k ws dev w)) = 0) /\
    (snd (result (LSBFirst k ws dev w)) <> None ->
     fst (result (LSBFirst k ws dev w)) = false) /\
    (snd (result (BitsPerWord k ws dev w)) <> None ->
     fst (result (BitsPerWord k ws dev w)) = 0) /\
    (snd (result (MaxSpeed k ws dev w)) <> None ->
     fst (result (MaxSpeed k ws dev w)) = 0).
Proof.
  intros W k ws dev w Hk.
  rewrite Mode_exact, LSBFirst_exact, BitsPerWord_exact, MaxSpeed_exact.
  unfold result. cbn [fst snd].
  repeat split; intros He;
    match goal with
    | H : errno_result ?e <> None |- _ =>
        assert (Hne : e <> 0)
          by (intros E0; apply H; apply errno_result_None; exact E0)
    end;
    rewrite (Hk _ _ _ _ Hne); try reflexivity; destruct ws; reflexivity.
Qed.

Lemma fixed_kernel_stores_nothing a taken :
  stores_nothing_on_error (Registers.fixed_kernel a taken).
Proof. intros fd0 op x w _. reflexivity. Qed.

Lemma getters_zero_on_error_witness :
  let k := Registers.fixed_kernel Fixed.io_error 0 in
  let dev := mkDevice 3 1000000 None in
  result (Mode k W64 dev tt) = (0, Some (Errno 5)) /\
  fst (result (LSBFirst k W64 dev tt)) = false /\
  fst (result (MaxSpeed k W64 dev tt)) = 0.
Proof.
  intros k dev.
  destruct (getters_zero_on_error _ k W64 dev tt
              (fixed_kernel_stores_nothing Fixed.io_error 0))
    as [H1 [H2 [_ H4]]].
  split; [reflexivity|].
  split; [apply H2; discriminate|apply H4; discriminate].
Defined.

Lemma well_sized_around ws c tr :
  well_sized ws tr -> well_sized ws (around c tr).
Proof.
  destruct c as [p|]; [|auto].
  cbn. induction tr as [|e tr IH]; [cbn; auto|].
  destruct e; cbn; try tauto.
Qed.

(** X7. Every device-control call that the package makes, in
    [Transfer] and in the eight accessors, is given a pointer to a value
    of exactly the size that its request code announces: one byte for
    mode, bit order and word size, four bytes for the speed, and the 32
    bytes of the transfer descriptor for [Transfer]. *)
Theorem ioctl_arguments_well_sized :
  forall W (k : Kernel W) ws dev snd rcv mode lsb n w,
    well_sized ws (trace (Transfer (k_os k) ws dev snd rcv w)) /\
    well_sized ws (trace (Mode k ws dev w)) /\
    well_sized ws (trace (SetMode k ws dev mode w)) /\
    well_sized ws (trace (LSBFirst k ws dev w)) /\
    well_sized ws (trace (SetLSBFirst k ws dev lsb w)) /\
    well_sized ws (trace (BitsPerWord k ws dev w)) /\
    well_sized ws (trace (SetBitsPerWord (k_os k) ws dev n w)) /\
    well_sized ws (trace (MaxSpeed k ws dev w)) /\
    well_sized ws (trace (SetMaxSpeed (k_os k) ws dev n w)).
Proof.
  intros W k ws dev snd rcv mode lsb n w.
  rewrite Mode_exact, SetMode_exact, LSBFirst_exact, SetLSBFirst_exact,
    BitsPerWord_exact, SetBitsPerWord_exact, MaxSpeed_exact,
    SetMaxSpeed_exact.
  unfold trace. cbn [fst Datatypes.snd well_sized].
  split; [|repeat split; reflexivity].
  destruct (Z.eq_dec (Go.len snd) (Go.len rcv)) as [He|Hne].
  - destruct (Z_lt_le_dec 0 (Go.len snd)) as [Hp|Hz].
    + destruct (TransferFacts.Transfer_run_nonempty (k_os k) ws dev snd rcv
                  w He Hp) as [errno [_ H]].
      unfold trace in H. rewrite H. apply well_sized_around.
      cbn [well_sized]. split; [|exact I].
      destruct ws; reflexivity.
    + pose proof (TransferFacts.len_nonneg snd) as Hnn.
      assert (Hs : Go.len snd = 0) by lia.
      assert (Hr : Go.len rcv = 0) by lia.
      destruct (TransferFacts.Transfer_run_empty (k_os k) ws dev snd rcv
                  w Hs Hr) as [_ H].
      unfold trace in H. rewrite H. apply well_sized_around. exact I.
  - rewrite (TransferFacts.Transfer_run_mismatch (k_os k) ws dev snd rcv
               w Hne).
    exact I.
Qed.

(** X8. For fewer than 512 segments the request code of
    [spi_IOC_MESSAGE] is the write request of type k and number 0 whose
    size field is the number of segments times the size of the transfer
    descriptor.  At 512 segments the sum runs over into the direction
    field: the code then announces a read of size 0. *)
Theorem spi_IOC_MESSAGE_is_write_request :
  forall ws n,
    0 <= n < 512 ->
    let size := n * struct_size ws (map snd spi_ioc_transfer_fields) in
    spi_IOC_MESSAGE ws n = IOC IOC_WRITE SPI_IOC_MAGIC 0 size /\
    ioc_dir (spi_IOC_MESSAGE ws n) = IOC_WRITE /\
    ioc_type (spi_IOC_MESSAGE ws n) = SPI_IOC_MAGIC /\
    ioc_nr (spi_IOC_MESSAGE ws n) = 0 /\
    ioc_size (spi_IOC_MESSAGE ws n) = size /\
    ioc_dir (spi_IOC_MESSAGE ws 512) = IOC_READ /\
    ioc_size (spi_IOC_MESSAGE ws 512) = 0.
Proof.
  intros ws n Hn size.
  assert (Hsz : struct_size ws (map snd spi_ioc_transfer_fields) = 32)
    by (destruct ws; reflexivity).
  assert (Hc : spi_IOC_MESSAGE ws n = 2 ^ 30 + (n * 32) * 2 ^ 16 + 27392).
  { rewrite TransferFacts.spi_IOC_MESSAGE_wrap.
    unfold spi_IOC_MESSAGE_base, spi_IOC_MESSAGE_incr.
    rewrite Z.mod_small; [lia|].
    destruct ws; cbn [bits]; lia. }
  unfold size. rewrite Hsz, Hc.
  unfold IOC, IOC_WRITE, SPI_IOC_MAGIC, ioc_dir, ioc_type, ioc_nr, ioc_size.
  split; [lia|].
  split.
  { replace (2 ^ 30 + n * 32 * 2 ^ 16 + 27392)
      with (1 * 2 ^ 30 + (n * 32 * 2 ^ 16 + 27392)) by lia.
    rewrite Z.div_add_l by lia.
    rewrite (Z.div_small (n * 32 * 2 ^ 16 + 27392)) by lia.
    reflexivity. }
  split.
  { replace (2 ^ 30 + n * 32 * 2 ^ 16 + 27392)
      with ((2 ^ 22 + n * 32 * 2 ^ 8 + 107) * 2 ^ 8 + 0) by lia.
    rewrite Z.div_add_l by lia. rewrite Z.div_0_l by lia.
    rewrite Z.add_0_r.
    replace (2 ^ 22 + n * 32 * 2 ^ 8 + 107)
      with (107 + (2 ^ 14 + n * 32) * 2 ^ 8) by lia.
    rewrite Z.mod_add by lia. reflexivity. }
  split.
  { replace (2 ^ 30 + n * 32 * 2 ^ 16 + 27392)
      with (0 + (2 ^ 22 + n * 32 * 2 ^ 8 + 107) * 2 ^ 8) by lia.
    rewrite Z.mod_add by lia. reflexivity. }
  split.
  { replace (2 ^ 30 + n * 32 * 2 ^ 16 + 27392)
      with ((2 ^ 14 + n * 32) * 2 ^ 16 + 27392) by lia.
    rewrite Z.div_add_l by lia.
    rewrite (Z.div_small 27392) by lia. rewrite Z.add_0_r.
    replace (2 ^ 14 + n * 32) with (n * 32 + 1 * 2 ^ 14) by lia.
    rewrite Z.mod_add by lia. apply Z.mod_small. lia. }
  destruct ws; split; reflexivity.
Qed.

Lemma spi_IOC_MESSAGE_is_write_request_witness :
  spi_IOC_MESSAGE W32 2 = IOC IOC_WRITE SPI_IOC_MAGIC 0 64 /\
  ioc_size (spi_IOC_MESSAGE W32 2) = 64.
Proof.
  assert (Hn : 0 <= 2 < 512) by lia.
  destruct (spi_IOC_MESSAGE_is_write_request W32 2 Hn)
    as [H1 [_ [_ [_ [H5 _]]]]].
  split; [exact H1|exact H5].
Defined.

End AccessorFacts.

(** ** More properties of Open *)

Module OpenMore.
Import Go Spidev Errors Env Spi Obs More MoreObs.

(** The device that [Open] returns. *)
Lemma Open_success_fields {W} (os : OS W) spiDevice speed customCS w dev :
  result (Open os spiDevice speed customCS w) = (Some dev, None) ->
  fd dev = fst (fst (os_open os spiDevice O_RDWR 0 w)) /\
  Spi.speed dev = speed /\
  (cs dev = None <-> customCS = 0) /\
  closes (trace (Open os spiDevice speed customCS w)) = [].
Proof.
  intros Hopen.
  destruct (OpenFacts.Open_cases os spiDevice speed customCS w)
    as [H|[H|[H|[H|H]]]].
  - destruct H as [_ [_ H]]. rewrite H in Hopen. discriminate Hopen.
  - destruct H as [_ [Hc [Ht Hr]]]. rewrite Hr in Hopen.
    injection Hopen as Hd. subst dev. rewrite Ht. cbn.
    repeat split; auto.
  - destruct H as [_ [e1 [c [_ [_ H]]]]]. rewrite H in Hopen.
    discriminate Hopen.
  - destruct H as [_ [Hc [p [Ht Hr]]]]. rewrite Hr in Hopen.
    injection Hopen as Hd. subst dev. rewrite Ht. cbn.
    repeat split; auto; try discriminate. intros E; contradiction.
  - destruct H as [_ [_ [err [c [_ H]]]]]. rewrite H in Hopen.
    discriminate Hopen.
Qed.

(** X9. [Open] returns either a device and no error, or an error and no
    device.  A device that it returns holds the descriptor that [open]
    gave, which [Open] has not closed, and the speed as it was passed;
    it has a chip-select exactly when [customCS] is not zero. *)
Theorem Open_returns_device_or_error :
  forall W (os : OS W) spiDevice speed customCS w,
    let r := Open os spiDevice speed customCS w in
    let fd0 := fst (fst (os_open os spiDevice O_RDWR 0 w)) in
    (exists dev,
       result r = (Some dev, None) /\
       fd dev = fd0 /\
       Spi.speed dev = speed /\
       (cs dev = None <-> customCS = 0) /\
       closes (trace r) = [])
    \/ (exists err, result r = (None, Some err)).
Proof.
  intros W os spiDevice speed0 customCS w r fd0.
  destruct (OpenFacts.Open_cases os spiDevice speed0 customCS w)
    as [H|[H|[H|[H|H]]]]; fold r in H; fold fd0 in H.
  - right. destruct H as [_ [_ H]]. eexists. exact H.
  - left. destruct H as [_ [Hc [Ht Hr]]]. eexists. split; [exact Hr|].
    rewrite Ht. cbn. repeat split; auto.
  - right. destruct H as [_ [e1 [c [_ [_ H]]]]]. eexists. exact H.
  - left. destruct H as [_ [Hc [p [Ht Hr]]]]. eexists. split; [exact Hr|].
    rewrite Ht. cbn. repeat split; auto; try discriminate.
    intros E; contradiction.
  - right. destruct H as [_ [_ [err [c [_ H]]]]]. eexists. exact H.
Qed.

(** X10. [Open] closes the descriptor exactly once when the path opened
    and [Open] fails, and never otherwise: not when it returns a device,
    and not when [open] itself failed. *)
Theorem Open_closes_iff_it_fails_after_open :
  forall W (os : OS W) spiDevice speed customCS w,
    let r := Open os spiDevice speed customCS w in
    let fd0 := fst (fst (os_open os spiDevice O_RDWR 0 w)) in
    let e0 := snd (fst (os_open os spiDevice O_RDWR 0 w)) in
    closes (trace r)
    = match fst (result r) with
      | Some _ => []
      | None => if e0 =? 0 then [fd0] else []
      end.
Proof.
  intros W os spiDevice speed0 customCS w r fd0 e0.
  destruct (OpenFacts.Open_cases os spiDevice speed0 customCS w)
    as [H|[H|[H|[H|H]]]]; fold r in H; fold fd0 in H; fold e0 in H.
  - destruct H as [He [Ht Hr]]. rewrite Ht, Hr. cbn.
    apply Z.eqb_neq in He. rewrite He. reflexivity.
  - destruct H as [_ [_ [Ht Hr]]]. rewrite Ht, Hr. reflexivity.
  - destruct H as [He [e1 [c [_ [Ht Hr]]]]]. rewrite Ht, Hr, He.
    reflexivity.
  - destruct H as [_ [_ [p [Ht Hr]]]]. rewrite Ht, Hr. reflexivity.
  - destruct H as [He [_ [err [c [Ht Hr]]]]]. rewrite Ht, Hr, He.
    reflexivity.
Qed.

(** X11. Whenever the path opens, [Open] calls [flock] exactly once, on
    the new descriptor, with LOCK_EX|LOCK_NB, whatever [customCS] is.
    It never calls [gpio.Output] when [customCS] is zero, and otherwise
    at most once, with the arguments [(customCS, true, false)]. *)
Theorem Open_lock_and_pin_calls :
  forall W (os : OS W) spiDevice speed customCS w,
    let r := Open os spiDevice speed customCS w in
    let fd0 := fst (fst (os_open os spiDevice O_RDWR 0 w)) in
    let e0 := snd (fst (os_open os spiDevice O_RDWR 0 w)) in
    flocks (trace r)
    = (if e0 =? 0 then [(fd0, Z.lor LOCK_EX LOCK_NB)] else []) /\
    (gpio_claims (trace r) = []
     \/ (customCS <> 0 /\
         gpio_claims (trace r) = [(customCS, true, false)])).
Proof.
  intros W os spiDevice speed0 customCS w r fd0 e0.
  destruct (OpenFacts.Open_cases os spiDevice speed0 customCS w)
    as [H|[H|[H|[H|H]]]]; fold r in H; fold fd0 in H; fold e0 in H.
  - destruct H as [He [Ht _]]. rewrite Ht. cbn.
    apply Z.eqb_neq in He. rewrite He. auto.
  - destruct H as [He [_ [Ht _]]]. rewrite Ht, He. cbn. auto.
  - destruct H as [He [e1 [c [_ [Ht _]]]]]. rewrite Ht, He. cbn. auto.
  - destruct H as [He [Hc [p [Ht _]]]]. rewrite Ht, He. cbn. auto.
  - destruct H as [He [Hc [err [c [Ht _]]]]]. rewrite Ht, He. cbn. auto.
Qed.

(** X12. A [Transfer] on a device that [Open] returned talks to the
    descriptor that [open] gave, and asks for the speed passed to
    [Open] reduced modulo 2^32: [Open] accepts any speed as it is.  The
    chip-select is written to exactly when [customCS] was not zero. *)
Theorem Open_then_Transfer :
  forall W (os : OS W) ws spiDevice speed customCS w dev snd rcv w',
    result (Open os spiDevice speed customCS w) = (Some dev, None) ->
    Go.len snd = Go.len rcv ->
    0 < Go.len snd ->
    let fd0 := fst (fst (os_open os spiDevice O_RDWR 0 w)) in
    exists d errno,
      trace (Transfer os ws dev snd rcv w')
      = around (cs dev)
          [EvIoctl (uint ws fd0) 0x40206B00 (ArgTransfer d) errno] /\
      speed_hz d = speed mod 2 ^ 32 /\
      result (Transfer os ws dev snd rcv w')
      = Returned (errno_result errno) /\
      (cs dev = None <-> customCS = 0).
Proof.
  intros W os ws spiDevice speed0 customCS w dev snd rcv w' Hopen He Hp fd0.
  destruct (Open_success_fields os spiDevice speed0 customCS w dev Hopen)
    as [Hfd [Hsp [Hcs _]]].
  destruct (TransferFacts.Transfer_run_nonempty os ws dev snd rcv w' He Hp)
    as [errno [Hres Htr]].
  eexists. exists errno. rewrite Htr, Hfd. fold fd0.
  split; [reflexivity|]. cbn [speed_hz]. rewrite Hsp.
  repeat split; auto; apply Hcs.
Qed.

(** X12 on a device opened with a custom chip-select on pin 17 at a
    speed of 2^32 + 5 Hz: the transfer asks for 5 Hz. *)
Lemma Open_then_Transfer_witness :
  let os := Fixed.fixed_os Fixed.all_good in
  let dev := mkDevice 3 4294967301 (Some (PinHandle 17)) in
  let snd := mkSlice 4096 [Byte.x0a] in
  let rcv := mkSlice 8192 [Byte.x00] in
  result (Open os "/dev/spidev5.1" 4294967301 17 tt) = (Some dev, None) /\
  exists d errno,
    trace (Transfer os W64 dev snd rcv tt)
    = around (cs dev) [EvIoctl 3 0x40206B00 (ArgTransfer d) errno] /\
    speed_hz d = 5.
Proof.
  intros os dev snd rcv.
  assert (Hopen : result (Open os "/dev/spidev5.1" 4294967301 17 tt)
                  = (Some dev, None)) by reflexivity.
  split; [exact Hopen|].
  assert (He : Go.len snd = Go.len rcv) by reflexivity.
  assert (Hp : 0 < Go.len snd) by reflexivity.
  destruct (Open_then_Transfer unit os W64 "/dev/spidev5.1"
              4294967301 17 tt dev snd rcv tt Hopen He Hp)
    as [d [errno [H1 [H2 _]]]].
  exists d, errno. split; [exact H1|exact H2].
Defined.

End OpenMore.

(** ** The earlier revisions *)

Module RevisionFacts.
Import Go Spidev Errors Env Spi Obs More MoreObs.

Ltac step_open :=
  repeat match goal with
    | |- context [os_open ?o ?a ?b ?c ?w] =>
        let fd := fresh "fd0" in
        let e := fresh "e0" in
        let w' := fresh "w" in
        destruct (os_open o a b c w) as [[fd e] w']; cbn
    | |- context [os_flock ?o ?a ?b ?w] =>
        let e := fresh "e1" in
        let w' := fresh "w" in
        destruct (os_flock o a b w) as [e w']; cbn
    | |- context [os_gpio_output ?o ?a ?b ?c ?w] =>
        let g := fresh "g" in
        let w' := fresh "w" in
        destruct (os_gpio_output o a b c w) as [[g|g] w']; cbn
    | |- context [os_close ?o ?a ?w] =>
        let c := fresh "c" in
        let w' := fresh "w" in
        destruct (os_close o a w) as [c w']; cbn
    | |- context [if ?e =? ?x then _ else _] =>
        let E := fresh "E" in
        destruct (e =? x) eqn:E; cbn
    | |- context [(?e =? ?x) || _] =>
        let E := fresh "E" in
        destruct (e =? x) eqn:E; cbn
    end.

(** X13. The one-buffer [Transfer] of the earlier revision does what
    the two-buffer [Transfer] does when it is given the same buffer
    twice: same calls, same descriptor (one address for both
    directions), same result, and the same panic on an empty buffer. *)
Theorem Transfer_buf_is_Transfer_in_place :
  forall W (k : Kernel W) ws dev buf w,
    Transfer_buf k ws dev buf w = Transfer (k_os k) ws dev buf buf w.
Proof.
  intros W k ws dev buf w.
  unfold Transfer_buf, Transfer.
  rewrite Z.eqb_refl. cbn [negb].
  destruct (addr_of_first buf); reflexivity.
Qed.

(** X14. [Open] of the earlier revision and [Open] of [src/spi.go] make
    the same calls and leave the same world; one fails exactly when the
    other does, and when they succeed they return the same device. *)
Theorem Open_part_001_same_calls :
  forall W (k : Kernel W) spiDevice speed customCS w,
    let old := Open_part_001 k spiDevice speed customCS w in
    let new := Open (k_os k) spiDevice speed customCS w in
    trace old = trace new /\
    world old = world new /\
    (snd (result old) = None <-> snd (result new) = None) /\
    (snd (result new) = None -> fst (result old) = fst (result new)).
Proof.
  intros W k spiDevice speed0 customCS w.
  unfold Open_part_001, Open, unix_Open, unix_Flock, unix_Close,
    gpio_Output, bind, ret, errnoErr, is_errno, trace, world, result.
  cbv zeta.
  step_open; repeat split; intros; try discriminate; reflexivity.
Qed.

(** X15. They differ in what they return when claiming the pin fails:
    the earlier [Open] then returns, together with the chip-select
    error, the device it had built after the lock, whose descriptor it
    has just closed; [Open] of [src/spi.go] returns no device. *)
Theorem Open_part_001_returns_closed_device :
  forall W (k : Kernel W) spiDevice speed customCS w g,
    let old := Open_part_001 k spiDevice speed customCS w in
    let new := Open (k_os k) spiDevice speed customCS w in
    let fd0 := fst (fst (os_open (k_os k) spiDevice O_RDWR 0 w)) in
    In (EvGpioOutput customCS true false (inr g)) (trace old) ->
    result old
    = (Some {| fd := fd0; speed := speed; cs := None |},
       Some (Errorf "GPIO %d for chip select: %v"
                    [OpInt customCS; OpValue g])) /\
    closes (trace old) = [fd0] /\
    fst (result new) = None.
Proof.
  intros W k spiDevice speed0 customCS w g.
  unfold Open_part_001, Open, unix_Open, unix_Flock, unix_Close,
    gpio_Output, bind, ret, errnoErr, is_errno, trace, world, result.
  cbv zeta.
  step_open; intros H;
    repeat (destruct H as [H|H]; try discriminate H);
    try contradiction.
  injection H as Hg. subst. repeat split; reflexivity.
Qed.

Lemma Open_part_001_returns_closed_device_witness :
  let k := Registers.fixed_kernel Registers.pin_taken 0 in
  let old := Open_part_001 k "/dev/spidev5.1" 1000000 17 tt in
  fst (result old)
  = Some {| fd := 3; speed := 1000000; cs := None |} /\
  closes (trace old) = [3].
Proof.
  intros k old.
  assert (H : In (EvGpioOutput 17 true false
                    (inr (Foreign "pin 17 is in use"))) (trace old))
    by (right; right; left; reflexivity).
  destruct (Open_part_001_returns_closed_device unit k "/dev/spidev5.1"
              1000000 17 tt (Foreign "pin 17 is in use") H)
    as [H1 [H2 _]].
  split; [|exact H2].
  fold old in H1. rewrite H1. reflexivity.
Defined.

Lemma xtrace_with_chip_select_x {W A} (k : Kernel W) dev
  (body : MX W A) w :
  exists w1,
    xresult (with_chip_select_x W k dev body w) = xresult (body w1) /\
    xtrace (with_chip_select_x W k dev body w)
    = around_x (cs dev) (xtrace (body w1)).
Proof.
  unfold with_chip_select_x, around_x.
  destruct (cs dev) as [p|].
  - unfold bindx, liftx, OutputPin_Write, retx, xresult, xtrace.
    destruct (os_pin_write (k_os k) p true w) as [r1 w1].
    exists w1.
    destruct (body w1) as [[a w2] t].
    destruct (os_pin_write (k_os k) p false w2) as [r2 w3].
    cbn. split; reflexivity.
  - exists w. split; reflexivity.
Qed.

(** X16. [Write] makes exactly one call to [write], with the whole
    buffer, between the writes to the chip-select if there is one, and
    never calls again.  It returns no error exactly when [write] gave
    no errno and took [len(buf)] bytes; it returns the errno when there
    is one, and otherwise the short-write error with the two counts. *)
Theorem Write_once :
  forall W (k : Kernel W) dev buf w,
    exists n errno,
      xtrace (Write k dev buf w)
      = around_x (cs dev)
          [EvWrite (fd dev) (ptr buf) (Go.len buf) n errno] /\
      xresult (Write k dev buf w)
      = (if negb (errno =? 0) then Some (Errno errno)
         else if negb (n =? Go.len buf)
              then Some (short_write_error n buf)
              else None) /\
      (xresult (Write k dev buf w) = None
       <-> errno = 0 /\ n = Go.len buf).
Proof.
  intros W k dev buf w. unfold Write.
  match goal with
  | |- context [with_chip_select_x W k dev ?body w] =>
      destruct (xtrace_with_chip_select_x k dev body w) as [w1 [H1 H2]]
  end.
  unfold bindx, unix_Write, retx, errnoErr in *.
  destruct (k_write k (fd dev) (ptr buf) (elems buf) w1)
    as [[n errno] w2].
  exists n, errno.
  rewrite H1, H2. clear H1 H2.
  unfold xtrace, xresult, short_write_error.
  destruct (errno =? 0) eqn:E; cbn.
  - apply Z.eqb_eq in E. destruct (n =? Go.len buf) eqn:En; cbn.
    + apply Z.eqb_eq in En. repeat split; auto.
    + apply Z.eqb_neq in En. repeat split; try discriminate; tauto.
  - apply Z.eqb_neq in E. repeat split; try discriminate; tauto.
Qed.

(** A kernel that takes two bytes at most: [Write] of three bytes
    reports the short write and does not try again. *)
Example Write_short :
  let k := Registers.fixed_kernel Fixed.all_good 2 in
  let dev := mkDevice 3 1000000 (Some (PinHandle 17)) in
  let buf := mkSlice 4096 [Byte.x0a; Byte.x0b; Byte.x0c] in
  Write k dev buf tt
  = (Some (short_write_error 2 buf), tt,
     [Sys (EvPinWrite (PinHandle 17) true);
      EvWrite 3 4096 3 2 0;
      Sys (EvPinWrite (PinHandle 17) false)]).
Proof. reflexivity. Qed.

(** X20. [Open] of the revision kept in [src/unnamed/part_000] never
    calls [flock] when a custom chip-select is asked for. *)
Theorem Open_earlier_never_locks_with_custom_cs :
  forall W (os : OS W) spiDevice speed customCS w,
    customCS <> 0 ->
    flocks (trace (Open_earlier os spiDevice speed customCS w)) = [] /\
    (snd (fst (os_open os spiDevice O_RDWR 0 w)) = 0 ->
     gpio_claims (trace (Open_earlier os spiDevice speed customCS w))
     = [(customCS, true, false)]).
Proof.
  intros W os spiDevice speed0 customCS w Hcs.
  apply Z.eqb_neq in Hcs.
  unfold Open_earlier, unix_Open, unix_Close, gpio_Output, bind, ret,
    errnoErr, trace.
  destruct (os_open os spiDevice O_RDWR 0 w) as [[fd0 e0] w0]. cbn.
  destruct (e0 =? 0) eqn:E0.
  - rewrite Hcs.
    destruct (os_gpio_output os customCS true false w0) as [[p|err] w1].
    + split; reflexivity.
    + destruct (os_close os fd0 w1) as [c w2]. split; reflexivity.
  - apply Z.eqb_neq in E0. split; [reflexivity|].
    intros H. contradiction.
Qed.

Lemma Open_earlier_never_locks_with_custom_cs_witness :
  let os := Fixed.fixed_os Fixed.locked in
  17 <> 0 /\
  flocks (trace (Open_earlier os "/dev/spidev5.1" 1000000 17 tt)) = [] /\
  fst (result (Open_earlier os "/dev/spidev5.1" 1000000 17 tt))
  = Some (mkDevice 3 1000000 (Some (PinHandle 17))).
Proof.
  intros os.
  assert (Hcs : 17 <> 0) by lia.
  split; [exact Hcs|].
  destruct (Open_earlier_never_locks_with_custom_cs unit os
              "/dev/spidev5.1" 1000000 17 tt Hcs) as [H _].
  split; [exact H|reflexivity].
Defined.

End RevisionFacts.

(** ** More properties of Read *)

Module ReadMore.
Import Go Spidev Errors Env Spi Obs More MoreObs.

Lemma reads_around c tr : reads (around c tr) = reads tr.
Proof.
  destruct c as [p|]; [|reflexivity].
  cbn. induction tr as [|e tr IH]; [reflexivity|].
  destruct e; cbn; rewrite ?IH; reflexivity.
Qed.

(** X17. [Read] into an empty buffer calls [read] not even once: it
    only asserts and deasserts the chip-select, if there is one, and
    returns no error. *)
Theorem Read_empty_buffer :
  forall W (os : OS W) fuel dev p w,
    let r := Read os (S fuel) dev (mkSlice p []) w in
    result r = Some (None, mkSlice p []) /\
    trace r = around (cs dev) [] /\
    reads (trace r) = [].
Proof.
  intros W os fuel dev p w r. unfold r, Read.
  destruct (TransferFacts.with_chip_select_run os dev
              (Read_loop os (S fuel) dev (mkSlice p []) 0) w)
    as [w1 [H1 H2]].
  rewrite H1, H2, reads_around.
  repeat split; reflexivity.
Qed.

(** The loop of [Read] calls [read] at most once per byte that is still
    to be read. *)
Lemma Read_loop_reads_bound {W} (os : OS W) :
  reads_make_progress os ->
  forall fuel dev buf k w,
    (k <= List.length (elems buf))%nat ->
    (List.length (reads (trace (Read_loop os fuel dev buf (Z.of_nat k) w)))
     <= List.length (elems buf) - k)%nat.
Proof.
  intros Hprog.
  induction fuel as [|fuel IH]; intros dev buf k w Hk; [cbn; lia|].
  cbn [Read_loop].
  destruct (Z.of_nat k <? Go.len buf) eqn:E; [|cbn; lia].
  apply Z.ltb_lt in E.
  assert (Hlt : (k < List.length (elems buf))%nat)
    by (unfold Go.len in E; lia).
  unfold bind.
  destruct (ReadFacts.unix_Read_run os (fd dev)
              (slice_from buf (Z.of_nat k)) w)
    as [data [e1 [w1 [Hos Hrun]]]].
  rewrite Hrun. clear Hrun.
  rewrite ReadFacts.len_slice_from in * by lia.
  cbn [ptr slice_from] in *.
  pose proof (Hprog (fd dev) (ptr buf + Z.of_nat k)
                (Go.len buf - Z.of_nat k) w) as Hp.
  rewrite Hos in Hp. cbn [fst snd] in Hp.
  destruct (e1 =? 0) eqn:E1; [|cbn; lia].
  apply Z.eqb_eq in E1. subst e1.
  assert (Hdata : data <> []) by (apply Hp; lia).
  set (d := firstn (Z.to_nat (Go.len buf - Z.of_nat k)) data) in *.
  assert (Hd1 : (1 <= List.length d)%nat).
  { unfold d. rewrite length_firstn.
    destruct data as [|x data']; [contradiction|].
    cbn [List.length]. unfold Go.len. lia. }
  assert (Hd2 : (k + List.length d <= List.length (elems buf))%nat).
  { pose proof (firstn_le_length
                  (Z.to_nat (Go.len buf - Z.of_nat k)) data) as Hle.
    fold d in Hle. unfold Go.len in Hle. lia. }
  assert (Hsl : List.length (elems (store buf (Z.of_nat k) d))
                = List.length (elems buf)).
  { unfold store. cbn [elems]. rewrite Nat2Z.id.
    apply ReadFacts.length_stored. exact Hd2. }
  replace (Z.of_nat k + Z.of_nat (List.length d))
    with (Z.of_nat (k + List.length d)) by lia.
  pose proof (IH dev (store buf (Z.of_nat k) d) (k + List.length d)%nat w1)
    as Hrec.
  rewrite Hsl in Hrec. specialize (Hrec Hd2).
  destruct (Read_loop os fuel dev (store buf (Z.of_nat k) d)
              (Z.of_nat (k + List.length d)) w1) as [[r w2] t].
  unfold trace in *. cbn [fst snd app reads List.length] in *. lia.
Qed.

(** X18. In an environment whose successful reads deliver at least one
    byte, [Read] calls [read] at most [len(buf)] times, however much
    fuel it has. *)
Theorem Read_calls_bounded :
  forall W (os : OS W),
    reads_make_progress os ->
    forall fuel dev buf w,
      (List.length (reads (trace (Read os fuel dev buf w)))
       <= List.length (elems buf))%nat.
Proof.
  intros W os Hprog fuel dev buf w. unfold Read.
  destruct (TransferFacts.with_chip_select_run os dev
              (Read_loop os fuel dev buf 0) w) as [w1 [_ H2]].
  rewrite H2, reads_around.
  pose proof (Read_loop_reads_bound os Hprog fuel dev buf 0%nat w1) as H.
  change (Z.of_nat 0) with 0 in H. lia.
Qed.

Lemma Read_calls_bounded_witness :
  let os := Fixed.fixed_os Fixed.all_good in
  let dev := mkDevice 3 1000000 None in
  let buf :=
    mkSlice 4096 [Byte.x00; Byte.x00; Byte.x00; Byte.x00; Byte.x00] in
  reads_make_progress os /\
  (List.length (reads (trace (Read os 9 dev buf tt))) <= 5)%nat.
Proof.
  intros os dev buf.
  assert (Hprog : reads_make_progress os).
  { intros fd0 p count w Hc He. cbn. discriminate. }
  split; [exact Hprog|].
  exact (Read_calls_bounded unit os Hprog 9%nat dev buf tt).
Defined.

(** The loop of [Read] at end of file. *)
Lemma Read_loop_at_eof {W} (os : OS W) dev :
  (forall fd p count w, fst (os_read os fd p count w) = ([], 0)) ->
  forall fuel buf w,
    elems buf <> [] ->
    result (Read_loop os fuel dev buf 0 w) = None.
Proof.
  intros Heof.
  induction fuel as [|fuel IH]; intros buf w Hne; [reflexivity|].
  cbn [Read_loop].
  assert (Hlen : 0 < Go.len buf).
  { unfold Go.len. destruct (elems buf); [contradiction|].
    cbn [List.length]. lia. }
  apply Z.ltb_lt in Hlen. rewrite Hlen.
  unfold bind, unix_Read.
  pose proof (Heof (fd dev) (ptr (slice_from buf 0))
                (Go.len (slice_from buf 0)) w) as H0.
  destruct (os_read os (fd dev) (ptr (slice_from buf 0))
              (Go.len (slice_from buf 0)) w) as [[data e1] w1].
  cbn [fst] in H0. injection H0 as Hd He. subst data e1.
  cbn [Z.eqb errnoErr]. rewrite firstn_nil. cbn [List.length Z.of_nat].
  assert (Hst : elems (store buf 0 []) <> []).
  { unfold store. cbn. exact Hne. }
  specialize (IH (store buf 0 []) w1 Hst).
  cbn [Z.add].
  destruct (Read_loop os fuel dev (store buf 0 []) 0 w1) as [[r w2] t].
  unfold result in *. cbn [fst] in *. exact IH.
Qed.

(** X19. In an environment where every read gives zero bytes and no
    error, as at end of file, [Read] into a non-empty buffer never
    returns: it runs out of any amount of fuel. *)
Theorem Read_never_returns_at_eof :
  forall W (os : OS W),
    (forall fd p count w, fst (os_read os fd p count w) = ([], 0)) ->
    forall fuel dev buf w,
      elems buf <> [] ->
      result (Read os fuel dev buf w) = None.
Proof.
  intros W os Heof fuel dev buf w Hne. unfold Read.
  destruct (TransferFacts.with_chip_select_run os dev
              (Read_loop os fuel dev buf 0) w) as [w1 [H1 _]].
  rewrite H1. apply Read_loop_at_eof; assumption.
Qed.

Lemma Read_never_returns_at_eof_witness :
  let os := Fixed.fixed_os Fixed.at_eof in
  let dev := mkDevice 3 1000000 (Some (PinHandle 17)) in
  result (Read os 1000 dev (mkSlice 4096 [Byte.x00; Byte.x00]) tt) = None.
Proof.
  intros os dev.
  apply (Read_never_returns_at_eof unit os).
  - intros fd0 p count w. reflexivity.
  - discriminate.
Defined.

End ReadMore.
